(** * A shallow embedding of [glxdemos/glthreadsint.c] (VirtualGL's
    multi-threaded GLX stress test) and the properties of its
    synchronization core. *)

From Stdlib Require Import List ZArith String Ascii Lia Bool.
From Stdlib Require Import Floats.SpecFloat.
Import ListNotations.
Open Scope Z_scope.

(** ** C arithmetic used by the program

    [float] is IEEE binary32, [double] binary64; both are represented by
    [spec_float].  A [float] widened to [double] keeps its value, so the
    widening is the identity on representations. *)

Definition f32_add := SFadd 24 128.
Definition f32_mul := SFmul 24 128.
Definition f32_div := SFdiv 24 128.
Definition f64_add := SFadd 53 1024.
Definition f64_sub := SFsub 53 1024.
Definition f64_mul := SFmul 53 1024.
Definition f64_div := SFdiv 53 1024.

(** Conversion [(float) d] of a [double]: round to nearest even. *)
Definition f32_of_f64 (x : spec_float) : spec_float :=
  match x with
  | S754_finite s m e => binary_round 24 128 s m e
  | _ => x
  end.

(** Conversions [(float) n] and [(double) n] of an [int]. *)
Definition f32_of_int (n : Z) : spec_float := binary_normalize 24 128 n 0 false.
Definition f64_of_int (n : Z) : spec_float := binary_normalize 53 1024 n 0 false.

(** Decimal literals of the source, as [double] constants. *)
Definition lit_0_5  : spec_float := S754_finite false 1 (-1).
Definition lit_0_25 : spec_float := S754_finite false 1 (-2).
Definition lit_0_75 : spec_float := S754_finite false 3 (-2).
Definition lit_1_0  : spec_float := S754_finite false 1 0.
Definition lit_5_0  : spec_float := S754_finite false 5 0.
Definition lit_180  : spec_float := S754_finite false 45 2.
Definition f_zero   : spec_float := S754_zero false.

(** ** Per-thread record [struct winthread]

    The thread handle and the [Ready] mutex are not data the program
    reads: the mutex (the unit's gate) is part of the concurrent machine
    below, where [pthread_mutex_unlock(&wt->Ready)] is the effect
    [UnlockReady i]. *)
Record winthread := mkWinthread {
  Dpy : Z;
  Index : Z;
  Win : Z;
  Context : Z;
  AngleX : spec_float;
  AngleY : spec_float;
  WinWidth : Z;
  WinHeight : Z;
  NewSize : bool;
  Initialized : bool;
  MakeNewTexture_flag : bool;
  MotionStartX : Z;
  MotionStartY : Z
}.

Definition MAX_WINTHREADS : Z := 100.

(** Synchronization effects issued by the input dispatcher, in order. *)
Inductive effect :=
| LockCondMutex            (* pthread_mutex_lock(&CondMutex) *)
| CondBroadcast            (* pthread_cond_broadcast(&CondVar) *)
| UnlockCondMutex          (* pthread_mutex_unlock(&CondMutex) *)
| SetExitFlag              (* ExitFlag = GL_TRUE *)
| UnlockReady (i : nat).   (* pthread_mutex_unlock(&WinThreads[i].Ready) *)

(** [signal_redraw] *)
Definition signal_redraw : list effect :=
  [LockCondMutex; CondBroadcast; UnlockCondMutex].

(** Updating entry [i] of the fixed table [WinThreads]; every index the
    program writes is below [NumWinThreads], the length of the list. *)
Fixpoint upd {A} (l : list A) (i : nat) (f : A -> A) : list A :=
  match l, i with
  | [], _ => []
  | x :: l', O => f x :: l'
  | x :: l', S i' => x :: upd l' i' f
  end.

(** The loops [for (i = 0; i < NumWinThreads; i++) if (ev.window ==
    WinThreads[i].Win) { ...; break; }]: the first unit owning [w]. *)
Fixpoint find_unit (l : list winthread) (w : Z) : option nat :=
  match l with
  | [] => None
  | u :: l' => if Z.eqb (Win u) w then Some O else option_map S (find_unit l' w)
  end.

(** *** Key symbols (X11/keysymdef.h) *)
Definition XK_Escape : Z := 65307.   (* 0xff1b *)
Definition XK_t : Z := 116.
Definition XK_T : Z := 84.
Definition XK_a : Z := 97.
Definition XK_s : Z := 115.
Definition XK_S : Z := 83.

(** *** Setters for the fields the handlers write *)
Definition set_MakeNewTexture (b : bool) (wt : winthread) : winthread :=
  {| Dpy := Dpy wt; Index := Index wt; Win := Win wt; Context := Context wt;
     AngleX := AngleX wt; AngleY := AngleY wt;
     WinWidth := WinWidth wt; WinHeight := WinHeight wt;
     NewSize := NewSize wt; Initialized := Initialized wt;
     MakeNewTexture_flag := b;
     MotionStartX := MotionStartX wt; MotionStartY := MotionStartY wt |}.

Definition set_MotionStart (x y : Z) (wt : winthread) : winthread :=
  {| Dpy := Dpy wt; Index := Index wt; Win := Win wt; Context := Context wt;
     AngleX := AngleX wt; AngleY := AngleY wt;
     WinWidth := WinWidth wt; WinHeight := WinHeight wt;
     NewSize := NewSize wt; Initialized := Initialized wt;
     MakeNewTexture_flag := MakeNewTexture_flag wt;
     MotionStartX := x; MotionStartY := y |}.

(** The field writes of [resize(wt, w, h)]; its [signal_redraw] is
    returned as an effect by [resize_effects]. *)
Definition resize (wt : winthread) (w h : Z) : winthread :=
  {| Dpy := Dpy wt; Index := Index wt; Win := Win wt; Context := Context wt;
     AngleX := AngleX wt; AngleY := AngleY wt;
     WinWidth := w; WinHeight := h;
     NewSize := true; Initialized := Initialized wt;
     MakeNewTexture_flag := MakeNewTexture_flag wt;
     MotionStartX := MotionStartX wt; MotionStartY := MotionStartY wt |}.

Definition resize_effects (Animate : bool) : list effect :=
  if Animate then [] else signal_redraw.

(** [wt->AngleX += (float)(x - MotionStartX) / (float)WinWidth * 180.;]
    and the same for [AngleY]: the quotient is a [float], the product and
    the sum are [double], the result is stored back as a [float]. *)
Definition angle_step (angle : spec_float) (d size : Z) : spec_float :=
  f32_of_f64 (f64_add angle
    (f64_mul (f32_div (f32_of_int d) (f32_of_int size)) lit_180)).

Definition motion (wt : winthread) (x y : Z) : winthread :=
  {| Dpy := Dpy wt; Index := Index wt; Win := Win wt; Context := Context wt;
     AngleX := angle_step (AngleX wt) (x - MotionStartX wt) (WinWidth wt);
     AngleY := angle_step (AngleY wt) (y - MotionStartY wt) (WinHeight wt);
     WinWidth := WinWidth wt; WinHeight := WinHeight wt;
     NewSize := NewSize wt; Initialized := Initialized wt;
     MakeNewTexture_flag := MakeNewTexture_flag wt;
     MotionStartX := x; MotionStartY := y |}.

(** Button1Mask .. Button5Mask are bits 8 .. 12 of the event state. *)
Definition any_button (state : Z) : bool :=
  existsb (fun b => Z.testbit state b) [8; 9; 10; 11; 12].

(** *** [keypress(event, wt)] for the unit at index [i]

    [Animate] and [Texture] are the process-wide flags; the [case XK_a]
    label falls through to [XK_s] because the toggle in between is
    compiled out by [#if 0]. *)
Definition keypress (Animate Texture : bool) (units : list winthread)
    (i : nat) (keySym : Z) : list winthread * list effect :=
  if Z.eqb keySym XK_Escape then
    (units,
     (if negb Animate then signal_redraw else [])
       ++ SetExitFlag :: map UnlockReady (seq 0 (List.length units)))
  else if Z.eqb keySym XK_t || Z.eqb keySym XK_T then
    if Texture then
      (upd units i (set_MakeNewTexture true),
       if negb Animate then signal_redraw else [])
    else (units, [])
  else if Z.eqb keySym XK_a || Z.eqb keySym XK_s || Z.eqb keySym XK_S then
    (units, if negb Animate then signal_redraw else [])
  else (units, []).

(** *** X events the dispatcher distinguishes *)
Inductive xevent :=
| ConfigureNotify (win width height : Z)
| MotionNotify (win x y state : Z)
| ButtonPress (win x y : Z)
| ButtonRelease (win : Z)
| Expose (win : Z)
| KeyPress (win keySym : Z)
| OtherEvent.

(** *** One dispatch of [event_loop] (single display connection) *)
Definition handle_event (Animate Texture : bool) (units : list winthread)
    (ev : xevent) : list winthread * list effect :=
  match ev with
  | ConfigureNotify w width height =>
      match find_unit units w with
      | Some i => (upd units i (fun wt => resize wt width height),
                   resize_effects Animate ++ [UnlockReady i])
      | None => (units, [])
      end
  | MotionNotify w x y state =>
      match find_unit units w with
      | Some i =>
          ((if any_button state then upd units i (fun wt => motion wt x y)
            else units), [UnlockReady i])
      | None => (units, [])
      end
  | ButtonPress w x y =>
      match find_unit units w with
      | Some i => (upd units i (set_MotionStart x y), [])
      | None => (units, [])
      end
  | ButtonRelease w | Expose w =>
      match find_unit units w with
      | Some i => (units, [UnlockReady i])
      | None => (units, [])
      end
  | KeyPress w k =>
      match find_unit units w with
      | Some i => keypress Animate Texture units i k
      | None => (units, [])
      end
  | OtherEvent => (units, [])
  end.

(** ** The threads: render units running [draw_loop] and the dispatcher

    Each render thread is at one of the program points of [draw_loop]:
    [U_Top] is the test [while (!ExitFlag)], [U_Gate] the call
    [pthread_mutex_lock(&wt->Ready)], [U_Check] the test
    [if (ExitFlag) break;], [U_Draw] the block from the first [LOCK] to
    [draw_object()], [U_Swap] the [LOCK]ed [glXSwapBuffers], [U_After] the
    tail ([usleep] or [pthread_mutex_lock(&CondMutex);
    pthread_cond_wait(...)]), [U_CondWait] the wait itself, [U_CondWake]
    the return from it (re-taking and releasing [CondMutex]) and [U_Done]
    the end of the thread.  [LOCK]/[UNLOCK] of the display connection
    bracket one atomic step each. *)
Inductive upc :=
| U_Top | U_Gate | U_Check | U_Draw | U_Swap | U_After
| U_CondWait | U_CondWake | U_Done.

(** Observable actions, recorded most recent first. *)
Inductive obs :=
| O_Loop (i : nat)          (* the [while] test passed *)
| O_Acquire (i : nat)       (* [pthread_mutex_lock(&wt->Ready)] returned *)
| O_Pass (i : nat)          (* [if (ExitFlag) break;] did not break *)
| O_Exit (i : nat)          (* the thread left [draw_loop] *)
| O_Draw (i : nat)          (* MakeCurrent, state update, clear, draw *)
| O_Swap (i : nat)          (* [glXSwapBuffers] *)
| O_Sleep (i : nat)         (* [usleep(5000)] *)
| O_Wait (i : nat)          (* entered [pthread_cond_wait] *)
| O_Wake (i : nat)          (* returned from [pthread_cond_wait] *)
| O_Event (ev : xevent)     (* the dispatcher dequeued an event *)
| O_Effect (e : effect).    (* the dispatcher performed an effect *)

Record sys := mkSys {
  ExitFlag : bool;
  CondMutexHeld : bool;       (* held by the dispatcher inside [signal_redraw] *)
  units : list winthread;     (* WinThreads[0 .. NumWinThreads-1] *)
  ready : list bool;          (* [true]: the unit's [Ready] mutex is locked *)
  pcs : list upc;
  disp : list effect;         (* effects of the event being dispatched *)
  trace : list obs
}.

(** After [create_window] every [Ready] mutex is locked; then the threads
    are created and the dispatcher enters its loop. *)
Definition init_sys (u0 : list winthread) : sys :=
  {| ExitFlag := false; CondMutexHeld := false; units := u0;
     ready := map (fun _ => true) u0; pcs := map (fun _ => U_Top) u0;
     disp := []; trace := [] |}.

Definition with_pc (s : sys) (i : nat) (pc : upc) (o : obs) : sys :=
  {| ExitFlag := ExitFlag s; CondMutexHeld := CondMutexHeld s;
     units := units s; ready := ready s;
     pcs := upd (pcs s) i (fun _ => pc); disp := disp s;
     trace := o :: trace s |}.

(** [pthread_mutex_lock(&wt->Ready)] on an unlocked gate. *)
Definition acquire_gate (s : sys) (i : nat) : sys :=
  {| ExitFlag := ExitFlag s; CondMutexHeld := CondMutexHeld s;
     units := units s; ready := upd (ready s) i (fun _ => true);
     pcs := upd (pcs s) i (fun _ => U_Check); disp := disp s;
     trace := O_Acquire i :: trace s |}.

(** The render thread's writes in the drawing block:
    [wt->Initialized = GL_TRUE], [wt->NewSize = GL_FALSE],
    [wt->MakeNewTexture = GL_FALSE]. *)
Definition drawn (wt : winthread) : winthread :=
  {| Dpy := Dpy wt; Index := Index wt; Win := Win wt; Context := Context wt;
     AngleX := AngleX wt; AngleY := AngleY wt;
     WinWidth := WinWidth wt; WinHeight := WinHeight wt;
     NewSize := false; Initialized := true;
     MakeNewTexture_flag := false;
     MotionStartX := MotionStartX wt; MotionStartY := MotionStartY wt |}.

Definition draw_block (s : sys) (i : nat) : sys :=
  {| ExitFlag := ExitFlag s; CondMutexHeld := CondMutexHeld s;
     units := upd (units s) i drawn; ready := ready s;
     pcs := upd (pcs s) i (fun _ => U_Swap); disp := disp s;
     trace := O_Draw i :: trace s |}.

(** One step of render thread [i]; [None] when it is blocked or done. *)
Definition unit_step (Animate : bool) (s : sys) (i : nat) : option sys :=
  match nth_error (pcs s) i with
  | Some U_Top =>
      if ExitFlag s then Some (with_pc s i U_Done (O_Exit i))
      else Some (with_pc s i U_Gate (O_Loop i))
  | Some U_Gate =>
      if nth i (ready s) true then None else Some (acquire_gate s i)
  | Some U_Check =>
      if ExitFlag s then Some (with_pc s i U_Done (O_Exit i))
      else Some (with_pc s i U_Draw (O_Pass i))
  | Some U_Draw => Some (draw_block s i)
  | Some U_Swap => Some (with_pc s i U_After (O_Swap i))
  | Some U_After =>
      if Animate then Some (with_pc s i U_Top (O_Sleep i))
      else if CondMutexHeld s then None
      else Some (with_pc s i U_CondWait (O_Wait i))
  | Some U_CondWake =>
      if CondMutexHeld s then None else Some (with_pc s i U_Top (O_Wake i))
  | Some U_CondWait | Some U_Done | None => None
  end.

(** POSIX allows [pthread_cond_wait] to return without a broadcast. *)
Definition spurious_wake (s : sys) (i : nat) : option sys :=
  match nth_error (pcs s) i with
  | Some U_CondWait => Some (with_pc s i U_CondWake (O_Wake i))
  | _ => None
  end.

Definition wake_all (pc : upc) : upc :=
  match pc with U_CondWait => U_CondWake | _ => pc end.

(** The dispatcher performs the next pending effect. *)
Definition perform (s : sys) (e : effect) (rest : list effect) : option sys :=
  let mk ex cm rd pc :=
    {| ExitFlag := ex; CondMutexHeld := cm; units := units s; ready := rd;
       pcs := pc; disp := rest; trace := O_Effect e :: trace s |} in
  match e with
  | LockCondMutex =>
      if CondMutexHeld s then None
      else Some (mk (ExitFlag s) true (ready s) (pcs s))
  | CondBroadcast =>
      Some (mk (ExitFlag s) (CondMutexHeld s) (ready s) (map wake_all (pcs s)))
  | UnlockCondMutex => Some (mk (ExitFlag s) false (ready s) (pcs s))
  | SetExitFlag => Some (mk true (CondMutexHeld s) (ready s) (pcs s))
  | UnlockReady i =>
      Some (mk (ExitFlag s) (CondMutexHeld s)
               (upd (ready s) i (fun _ => false)) (pcs s))
  end.

Definition disp_step (s : sys) : option sys :=
  match disp s with
  | e :: rest => perform s e rest
  | [] => None
  end.

(** [while (!ExitFlag) { ... XNextEvent ...; switch (event.type) ... }]:
    a new event is taken once the previous one is fully handled. *)
Definition take_event (Animate Texture : bool) (s : sys) (ev : xevent)
    : option sys :=
  match disp s with
  | [] =>
      if ExitFlag s then None
      else
        let '(u', eff) := handle_event Animate Texture (units s) ev in
        Some {| ExitFlag := ExitFlag s; CondMutexHeld := CondMutexHeld s;
                units := u'; ready := ready s; pcs := pcs s; disp := eff;
                trace := O_Event ev :: trace s |}
  | _ :: _ => None
  end.

Inductive choice :=
| CUnit (i : nat) | CSpurious (i : nat) | CDisp | CEvent (ev : xevent).

Definition exec (Animate Texture : bool) (s : sys) (c : choice) : option sys :=
  match c with
  | CUnit i => unit_step Animate s i
  | CSpurious i => spurious_wake s i
  | CDisp => disp_step s
  | CEvent ev => take_event Animate Texture s ev
  end.

(** Interleavings of the whole program from the initial state. *)
Inductive reachable (Animate Texture : bool) (u0 : list winthread) : sys -> Prop :=
| reach_init : reachable Animate Texture u0 (init_sys u0)
| reach_step : forall s c s',
    reachable Animate Texture u0 s ->
    exec Animate Texture s c = Some s' ->
    reachable Animate Texture u0 s'.

(** A schedule, run from a state. *)
Fixpoint run (Animate Texture : bool) (s : sys) (cs : list choice) : option sys :=
  match cs with
  | [] => Some s
  | c :: cs' =>
      match exec Animate Texture s c with
      | Some s' => run Animate Texture s' cs'
      | None => None
      end
  end.

(** ** [MakeNewTexture]

    [cos] is the C library's [double] cosine, a parameter of the
    development. *)
Section Texture.

Variable cos : spec_float -> spec_float.

Definition TEX_SIZE : Z := 128.
Definition TexObj : Z := 12.

Definition GL_TEXTURE_2D : Z := 3553.          (* 0x0DE1 *)
Definition GL_TEXTURE_WIDTH : Z := 4096.       (* 0x1000 *)
Definition GL_RGBA : Z := 6408.                (* 0x1908 *)
Definition GL_FLOAT : Z := 5126.               (* 0x1406 *)
Definition GL_TEXTURE_MAG_FILTER : Z := 10240. (* 0x2800 *)
Definition GL_TEXTURE_MIN_FILTER : Z := 10241. (* 0x2801 *)
Definition GL_LINEAR : Z := 9729.              (* 0x2601 *)

(** [float dt = 5.0 * (j - 0.5 * TEX_SIZE) / TEX_SIZE;] *)
Definition tex_coord (j : Z) : spec_float :=
  f32_of_f64
    (f64_div
       (f64_mul lit_5_0
          (f64_sub (f64_of_int j) (f64_mul lit_0_5 (f64_of_int TEX_SIZE))))
       (f64_of_int TEX_SIZE)).

(** One texel: [r = dt * dt + ds * ds + step] in [float], then
    [0.75 + 0.25 * cos(r)] for R, G and B and [1.0] for A. *)
Definition texel (step : spec_float) (j i : Z) : list spec_float :=
  let dt := tex_coord j in
  let ds := tex_coord i in
  let r := f32_add (f32_add (f32_mul dt dt) (f32_mul ds ds)) step in
  let v := f32_of_f64 (f64_add lit_0_75 (f64_mul lit_0_25 (cos r))) in
  [v; v; v; lit_1_0].

(** [GLfloat image[TEX_SIZE][TEX_SIZE][4]], rows indexed by [j]. *)
Definition tex_image (step : spec_float) : list (list (list spec_float)) :=
  map (fun j => map (fun i => texel step (Z.of_nat j) (Z.of_nat i))
                    (seq 0 (Z.to_nat TEX_SIZE)))
      (seq 0 (Z.to_nat TEX_SIZE)).

Inductive gl_call :=
| glBindTexture (target texture : Z)
| glGetTexLevelParameteriv (target level pname : Z)
| glTexSubImage2D (target level xoffset yoffset width height format type : Z)
                  (pixels : list (list (list spec_float)))
| glTexParameteri (target pname param : Z)
| glTexImage2D (target level internalFormat width height border format type : Z)
               (pixels : list (list (list spec_float))).

(** [MakeNewTexture(wt)] given the current value of the static [step] and
    the level-0 width of [TexObj] that [glGetTexLevelParameteriv] reports.
    It returns the new [step], the GL calls issued and the new width of
    the texture; [None] when [assert(width == TEX_SIZE)] fails. *)
Definition MakeNewTexture (step : spec_float) (width : Z)
    : option (spec_float * list gl_call * Z) :=
  let image := tex_image step in
  let step' := f32_of_f64 (f64_add step lit_0_5) in
  let pre := [glBindTexture GL_TEXTURE_2D TexObj;
              glGetTexLevelParameteriv GL_TEXTURE_2D 0 GL_TEXTURE_WIDTH] in
  if negb (Z.eqb width 0) then
    if Z.eqb width TEX_SIZE then
      Some (step',
            pre ++ [glTexSubImage2D GL_TEXTURE_2D 0 0 0 TEX_SIZE TEX_SIZE
                                    GL_RGBA GL_FLOAT image],
            width)
    else None
  else
    Some (step',
          pre ++ [glTexParameteri GL_TEXTURE_2D GL_TEXTURE_MIN_FILTER GL_LINEAR;
                  glTexParameteri GL_TEXTURE_2D GL_TEXTURE_MAG_FILTER GL_LINEAR;
                  glTexImage2D GL_TEXTURE_2D 0 GL_RGBA TEX_SIZE TEX_SIZE 0
                               GL_RGBA GL_FLOAT image],
          TEX_SIZE).

End Texture.

(** *** The update [step += 0.5] as the render threads execute it

    [MakeNewTexture] is called from [draw_loop] outside any lock when
    [wt->MakeNewTexture] is set, so two render threads may run it at the
    same time.  [step += 0.5] loads [step], adds [0.5] in [double] and
    stores the [float] result.  A thread here has a number of pending
    calls and, between its load and its store, the loaded value. *)
Record tex_thread := mkTexThread { pending : nat; loaded : option spec_float }.

Definition rmw_step (step : spec_float) (ts : list tex_thread) (i : nat)
    : option (spec_float * list tex_thread) :=
  match nth_error ts i with
  | Some (mkTexThread (S n) None) =>
      Some (step, upd ts i (fun _ => mkTexThread (S n) (Some step)))
  | Some (mkTexThread (S n) (Some v)) =>
      Some (f32_of_f64 (f64_add v lit_0_5), upd ts i (fun _ => mkTexThread n None))
  | _ => None
  end.

(** The successive values of [step] along a schedule, oldest first. *)
Fixpoint rmw_run (step : spec_float) (ts : list tex_thread) (sched : list nat)
    : option (list spec_float) :=
  match sched with
  | [] => Some [step]
  | i :: sched' =>
      match rmw_step step ts i with
      | Some (step', ts') =>
          option_map (fun h => step :: h) (rmw_run step' ts' sched')
      | None => None
      end
  end.

(** ** Command line: [atoi] and the option loop of [main] *)

Open Scope string_scope.

(** glibc's [atoi(s)] is [(int) strtol(s, NULL, 10)]: leading white
    space, an optional sign, decimal digits; [strtol] saturates at
    [LONG_MIN]/[LONG_MAX] (64-bit [long]) and the conversion to [int]
    keeps the low 32 bits. *)
Definition is_space (c : ascii) : bool :=
  let n := nat_of_ascii c in
  Nat.eqb n 32 || (Nat.leb 9 n && Nat.leb n 13).

Fixpoint skip_spaces (s : string) : string :=
  match s with
  | String c s' => if is_space c then skip_spaces s' else s
  | EmptyString => EmptyString
  end.

Definition digit_value (c : ascii) : option Z :=
  let n := nat_of_ascii c in
  if Nat.leb 48 n && Nat.leb n 57 then Some (Z.of_nat n - 48) else None.

Fixpoint digits_acc (s : string) (acc : Z) : Z :=
  match s with
  | String c s' =>
      match digit_value c with
      | Some d => digits_acc s' (10 * acc + d)
      | None => acc
      end
  | EmptyString => acc
  end.

Definition LONG_MIN : Z := - 2 ^ 63.
Definition LONG_MAX : Z := 2 ^ 63 - 1.

Definition strtol10 (s : string) : Z :=
  let v :=
    match skip_spaces s with
    | String c s' =>
        if Ascii.eqb c "-"%char then - digits_acc s' 0
        else if Ascii.eqb c "+"%char then digits_acc s' 0
        else digits_acc (String c s') 0
    | EmptyString => 0
    end in
  Z.max LONG_MIN (Z.min LONG_MAX v).

Definition int_of_long (v : Z) : Z := (v + 2 ^ 31) mod 2 ^ 32 - 2 ^ 31.

Definition atoi (s : string) : Z := int_of_long (strtol10 s).

Record config := mkConfig {
  displayName : option string;
  numThreads : Z;
  cfg_MultiDisplays : bool;
  cfg_Locking : bool;
  cfg_Texture : bool
}.

(** [char *displayName = NULL; int numThreads = 2;] and the file-scope
    initialisers of [MultiDisplays], [Locking] and [Texture]. *)
Definition default_config : config :=
  mkConfig None 2 false false false.

(** The [-n] branch: [numThreads = atoi(argv[i + 1])] clamped. *)
Definition clamp_threads (n : Z) : Z :=
  if Z.ltb n 1 then 1 else if Z.gtb n MAX_WINTHREADS then MAX_WINTHREADS else n.

Inductive parse_result := ParseOk (c : config) | ParseExit (status : Z).

(** [for (i = 1; i < argc; i++) ...] over [argv[1..]]. *)
Fixpoint parse_loop (c : config) (args : list string) : parse_result :=
  match args with
  | [] => ParseOk c
  | a :: rest =>
      match rest with
      | b :: rest' =>
          if String.eqb a "-display" then
            parse_loop (mkConfig (Some b) (numThreads c) (cfg_MultiDisplays c)
                                 (cfg_Locking c) (cfg_Texture c)) rest'
          else if String.eqb a "-p" then
            parse_loop (mkConfig (displayName c) (numThreads c) true
                                 (cfg_Locking c) (cfg_Texture c)) rest
          else if String.eqb a "-l" then
            parse_loop (mkConfig (displayName c) (numThreads c)
                                 (cfg_MultiDisplays c) true (cfg_Texture c)) rest
          else if String.eqb a "-t" then
            parse_loop (mkConfig (displayName c) (numThreads c)
                                 (cfg_MultiDisplays c) (cfg_Locking c) true) rest
          else if String.eqb a "-n" then
            parse_loop (mkConfig (displayName c) (clamp_threads (atoi b))
                                 (cfg_MultiDisplays c) (cfg_Locking c)
                                 (cfg_Texture c)) rest'
          else ParseExit 1
      | [] =>
          (* [i + 1 < argc] fails for [-display] and [-n] *)
          if String.eqb a "-p" then
            ParseOk (mkConfig (displayName c) (numThreads c) true
                              (cfg_Locking c) (cfg_Texture c))
          else if String.eqb a "-l" then
            ParseOk (mkConfig (displayName c) (numThreads c)
                              (cfg_MultiDisplays c) true (cfg_Texture c))
          else if String.eqb a "-t" then
            ParseOk (mkConfig (displayName c) (numThreads c)
                              (cfg_MultiDisplays c) (cfg_Locking c) true)
          else ParseExit 1
      end
  end.

(** Text written by [main] while parsing. *)
Inductive output := Usage.

Definition is_flag_error (r : parse_result) : bool :=
  match r with ParseExit _ => true | ParseOk _ => false end.

(** [if (argc == 1) usage(); else { loop }]; the loop calls [usage()]
    before [exit(1)]. *)
Definition parse_args (args : list string) : list output * parse_result :=
  match args with
  | [] => ([Usage], ParseOk default_config)
  | _ :: _ =>
      let r := parse_loop default_config args in
      (if is_flag_error r then [Usage] else [], r)
  end.

(** A string that is none of the options the loop recognises. *)
Definition unrecognized (a : string) : Prop :=
  a <> "-display" /\ a <> "-p" /\ a <> "-l" /\ a <> "-t" /\ a <> "-n".

Close Scope string_scope.

(** ** Setup, exit status and shutdown of [main] *)

(** What the external calls of the setup return: [XOpenDisplay] of the
    shared connection and of unit [i]'s own connection, [glXChooseVisual],
    [XCreateWindow] and [glXCreateContext] for unit [i] (success or not),
    and the return values of [pthread_mutex_init] and [pthread_mutex_lock]
    on unit [i]'s [Ready] mutex (0 or an error number). *)
Record env := mkEnv {
  open_display_ok : bool;
  unit_display_ok : nat -> bool;
  visual_ok : nat -> bool;
  window_ok : nat -> bool;
  context_ok : nat -> bool;
  mutex_init_ret : nat -> Z;
  mutex_lock_ret : nat -> Z
}.

Inductive outcome :=
| Exited (status : Z)   (* process exit status *)
| Aborted.              (* a failed [assert] *)

(** The exit status of a process whose [main] returns [r]. *)
Definition status_of_return (r : Z) : Z := Z.land r 255.

(** [create_window(&WinThreads[i], share)]: [Some 1] when it calls
    [Error], which [exit(1)]s. *)
Definition create_window (e : env) (i : nat) : option Z :=
  if negb (visual_ok e i) then Some 1
  else if negb (window_ok e i) then Some 1
  else if negb (context_ok e i) then Some 1
  else if Z.eqb (mutex_init_ret e i) (-1) || Z.eqb (mutex_lock_ret e i) (-1)
  then Some 1
  else None.

(** The loop [for (i = 0; i < numThreads; i++)] that opens unit [i]'s
    connection in [-p] mode ([assert(WinThreads[i].Dpy)]) and calls
    [create_window]; [None] when every unit was set up. *)
Fixpoint setup_units (e : env) (multi : bool) (l : list nat) : option outcome :=
  match l with
  | [] => None
  | i :: l' =>
      if multi && negb (unit_display_ok e i) then Some Aborted
      else match create_window e i with
           | Some st => Some (Exited st)
           | None => setup_units e multi l'
           end
  end.

(** [main]: once the units are set up the threads run and [event_loop]
    (or [event_loop_multi]) returns only after [ExitFlag] was set by the
    exit key; [clean_up()], the [XCloseDisplay] calls and [return 0]
    follow. *)
Definition main (e : env) (args : list string) : outcome :=
  match snd (parse_args args) with
  | ParseExit st => Exited st
  | ParseOk c =>
      if negb (cfg_MultiDisplays c) && negb (open_display_ok e) then
        Exited (status_of_return (-1))
      else
        match setup_units e (cfg_MultiDisplays c)
                (seq 0 (Z.to_nat (numThreads c))) with
        | Some o => o
        | None => Exited (status_of_return 0)
        end
  end.

(** Calls made by [clean_up()] and the tail of [main]. *)
Inductive res_call :=
| pthread_join (i : nat)
| glXDestroyContext (dpy ctx : Z)
| XDestroyWindow (dpy win : Z)
| XCloseDisplay (dpy : Z).

Definition clean_up (ws : list winthread) : list res_call :=
  map pthread_join (seq 0 (List.length ws))
  ++ flat_map (fun wt => [glXDestroyContext (Dpy wt) (Context wt);
                          XDestroyWindow (Dpy wt) (Win wt)]) ws.

(** [clean_up()] then the [XCloseDisplay] of each unit's connection in
    [-p] mode, or of the shared [dpy]. *)
Definition shutdown (multi : bool) (dpy : Z) (ws : list winthread)
    : list res_call :=
  clean_up ws
  ++ (if multi then map (fun wt => XCloseDisplay (Dpy wt)) ws
      else [XCloseDisplay dpy]).

(** ** Sample data *)

Definition sample_unit (dpy w : Z) : winthread :=
  mkWinthread dpy 0 w 0 f_zero f_zero 700 700 true false false 0 0.

Definition env_all_ok : env :=
  mkEnv true (fun _ => true) (fun _ => true) (fun _ => true) (fun _ => true)
        (fun _ => 0) (fun _ => 0).

Definition env_no_display : env :=
  mkEnv false (fun _ => true) (fun _ => true) (fun _ => true) (fun _ => true)
        (fun _ => 0) (fun _ => 0).

Definition env_no_visual (k : nat) : env :=
  mkEnv true (fun _ => true) (fun i => negb (Nat.eqb i k)) (fun _ => true)
        (fun _ => true) (fun _ => 0) (fun _ => 0).

(** ** [event_loop_multi]: one display connection per unit

    The dispatcher polls the units in turn; an event read from unit [w]'s
    connection is handled for [WinThreads[w]] without comparing the
    event's window with the units' windows. *)
Definition handle_event_multi (Animate Texture : bool) (units : list winthread)
    (w : nat) (ev : xevent) : list winthread * list effect :=
  match ev with
  | ConfigureNotify _ width height =>
      (upd units w (fun wt => resize wt width height),
       resize_effects Animate ++ [UnlockReady w])
  | MotionNotify _ x y state =>
      ((if any_button state then upd units w (fun wt => motion wt x y)
        else units), [UnlockReady w])
  | ButtonPress _ x y => (upd units w (set_MotionStart x y), [])
  | ButtonRelease _ | Expose _ => (units, [UnlockReady w])
  | KeyPress _ k => keypress Animate Texture units w k
  | OtherEvent => (units, [])
  end.

(** [w = (w + 1) % NumWinThreads;] with C's [%]. *)
Definition next_w (w n : Z) : Z := Z.rem (w + 1) n.

(** The units polled by [k] iterations of the loop started at unit [w]
    (an iteration polls its unit whether or not an event is pending). *)
Fixpoint polled (n w : Z) (k : nat) : list Z :=
  match k with
  | O => []
  | S k' => w :: polled n (next_w w n) k'
  end.

(** The window an event names ([event.xconfigure.window],
    [event.xmotion.window], [event.xbutton.window], [event.xexpose.window],
    [event.xkey.window]); [None] for the events the switch ignores. *)
Definition event_window (ev : xevent) : option Z :=
  match ev with
  | ConfigureNotify w _ _ | MotionNotify w _ _ _ | ButtonPress w _ _
  | ButtonRelease w | Expose w | KeyPress w _ => Some w
  | OtherEvent => None
  end.

(** ** [create_window]: placement and the fields it writes *)

(** [int width = 700, height = 700;] *)
Definition cw_width : Z := 700.
Definition cw_height : Z := 700.

(** [xpos = (wt->Index % 2) * (width + 10)] and
    [ypos = (wt->Index / 2) * (width + 20)], with C's truncating [%] and
    [/]. *)
Definition window_pos (index : Z) : Z * Z :=
  (Z.rem index 2 * (cw_width + 10), Z.quot index 2 * (cw_width + 20)).

(** The geometry [XCreateWindow(wt->Dpy, root, xpos, ypos, width, height,
    ...)] asks for: origin, width and height. *)
Definition window_rect (index : Z) : Z * Z * Z * Z :=
  let '(x, y) := window_pos index in (x, y, cw_width, cw_height).

(** The writes of [create_window] once [XCreateWindow] returned [win] and
    [glXCreateContext] returned [ctx]; [wt->AngleX = wt->AngleY = 0.0]
    stores [+0]. *)
Definition create_window_fields (wt : winthread) (win ctx : Z) : winthread :=
  {| Dpy := Dpy wt; Index := Index wt; Win := win; Context := ctx;
     AngleX := f_zero; AngleY := f_zero;
     WinWidth := cw_width; WinHeight := cw_height;
     NewSize := true; Initialized := Initialized wt;
     MakeNewTexture_flag := MakeNewTexture_flag wt;
     MotionStartX := MotionStartX wt; MotionStartY := MotionStartY wt |}.

(** An entry of the zero-initialised [static struct winthread
    WinThreads[MAX_WINTHREADS]]. *)
Definition zero_unit : winthread :=
  mkWinthread 0 0 0 0 f_zero f_zero 0 0 false false false 0 0.

Definition zero_table : list winthread := repeat zero_unit (Z.to_nat MAX_WINTHREADS).

(** What the setup calls return when none fails: the connection
    [XOpenDisplay] opens for unit [i] in [-p] mode, the window of
    [XCreateWindow] and the context of [glXCreateContext] for unit [i]. *)
Record xresults := mkXresults {
  res_display : nat -> Z;
  res_window : nat -> Z;
  res_context : nat -> Z
}.

(** [WinThreads[i].Dpy = ...; WinThreads[i].Index = i;
    WinThreads[i].Initialized = GL_FALSE;] *)
Definition unit_start (dpy : Z) (i : nat) (wt : winthread) : winthread :=
  {| Dpy := dpy; Index := Z.of_nat i; Win := Win wt; Context := Context wt;
     AngleX := AngleX wt; AngleY := AngleY wt;
     WinWidth := WinWidth wt; WinHeight := WinHeight wt;
     NewSize := NewSize wt; Initialized := false;
     MakeNewTexture_flag := MakeNewTexture_flag wt;
     MotionStartX := MotionStartX wt; MotionStartY := MotionStartY wt |}.

(** The loop [for (i = 0; i < numThreads; i++)] of [main] that creates the
    windows, on its success path: the table it leaves and, for each unit,
    the [shareCtx] passed to [glXCreateContext], which is
    [(Texture && i > 0) ? WinThreads[0].Context : 0]. *)
Fixpoint setup_loop (Texture multi : bool) (dpy : Z) (xr : xresults)
    (tbl : list winthread) (idx : list nat) : list winthread * list (nat * Z) :=
  match idx with
  | [] => (tbl, [])
  | i :: idx' =>
      let tbl1 := upd tbl i (unit_start (if multi then res_display xr i else dpy) i) in
      let share := if Texture && Nat.ltb 0 i then Context (nth 0 tbl1 zero_unit) else 0 in
      let tbl2 := upd tbl1 i (fun wt => create_window_fields wt (res_window xr i)
                                                         (res_context xr i)) in
      let '(tbl', calls) := setup_loop Texture multi dpy xr tbl2 idx' in
      (tbl', (i, share) :: calls)
  end.

(** ** The [LOCK]/[UNLOCK] macros and the start of [main] *)

Inductive xlock :=
| MutexLock      (* pthread_mutex_lock(&Mutex) / pthread_mutex_unlock(&Mutex) *)
| DisplayLock.   (* XLockDisplay(dpy) / XUnlockDisplay(dpy) *)

(** The primitive [LOCK(dpy)] takes; [UNLOCK(dpy)] makes the same test and
    releases the same primitive. *)
Definition LOCK (Locking MultiDisplays : bool) : option xlock :=
  if Locking then Some MutexLock
  else if negb MultiDisplays then Some DisplayLock
  else None.

Inductive prelude_step :=
| MsgExplicitLocks   (* "Using explicit locks around Xlib calls." *)
| MsgXLockDisplay    (* "Using XLockDisplay()/XUnlockDisplay()." *)
| MsgPerThread       (* "Per-thread display connections." *)
| MsgSingle          (* "Single display connection." *)
| CallXInitThreads
| CallXOpenDisplay.

(** [main] from the end of the option loop to the opening of the shared
    connection (the report of [XInitThreads]'s result left out). *)
Definition main_prelude (Locking MultiDisplays : bool) : list prelude_step :=
  (if Locking then [MsgExplicitLocks]
   else if negb MultiDisplays then [MsgXLockDisplay] else [])
  ++ (if MultiDisplays then [MsgPerThread] else [MsgSingle])
  ++ (if negb MultiDisplays then
        (if negb Locking then [CallXInitThreads] else []) ++ [CallXOpenDisplay]
      else []).

(** ** One frame of [draw_loop] as GL and GLX calls

    From the first [LOCK] after the gate to the [UNLOCK] after
    [glXSwapBuffers]; [MakeNewTexture(wt)] and [draw_object()] are single
    entries here ([MakeNewTexture] and [draw_object] are modelled on their
    own). *)
Definition GL_DEPTH_TEST : Z := 2929.         (* 0x0B71 *)
Definition GL_MODELVIEW : Z := 5888.          (* 0x1700 *)
Definition GL_PROJECTION : Z := 5889.         (* 0x1701 *)
Definition GL_COLOR_DEPTH_BITS : Z := 16640.  (* GL_COLOR_BUFFER_BIT | GL_DEPTH_BUFFER_BIT *)

Inductive fcall :=
| fLock (k : xlock)
| fUnlock (k : xlock)
| fMakeCurrent (dpy win ctx : Z)
| fPrintRenderer (index : Z)        (* printf of glGetString(GL_RENDERER) *)
| fMakeNewTexture                   (* MakeNewTexture(wt) *)
| fEnable (cap : Z)
| fViewport (x y width height : Z)
| fMatrixMode (mode : Z)
| fLoadIdentity
| fFrustum (w : spec_float)         (* glFrustum(-w, w, -1.0, 1.0, 1.5, 10) *)
| fTranslate                        (* glTranslatef(0, 0, -2.5) *)
| fClear (mask : Z)
| fPushMatrix
| fPopMatrix
| fRotate (angle : spec_float) (x y z : Z)
| fScale                            (* glScalef(0.7, 0.7, 0.7) *)
| fDrawObject                       (* draw_object() *)
| fSwapBuffers (dpy win : Z).

Definition lock_calls (Locking MultiDisplays : bool) : list fcall :=
  match LOCK Locking MultiDisplays with Some k => [fLock k] | None => [] end.

Definition unlock_calls (Locking MultiDisplays : bool) : list fcall :=
  match LOCK Locking MultiDisplays with Some k => [fUnlock k] | None => [] end.

(** The calls of one frame of unit [wt] and the record it leaves
    ([drawn], as in the machine's drawing block). *)
Definition frame (Locking MultiDisplays Texture : bool) (wt : winthread)
    : list fcall * winthread :=
  (lock_calls Locking MultiDisplays
   ++ fMakeCurrent (Dpy wt) (Win wt) (Context wt)
   :: (if Initialized wt then []
       else fPrintRenderer (Index wt) :: (if Texture then [fMakeNewTexture] else []))
   ++ unlock_calls Locking MultiDisplays
   ++ fEnable GL_DEPTH_TEST
   :: (if NewSize wt then
         [fViewport 0 0 (WinWidth wt) (WinHeight wt);
          fMatrixMode GL_PROJECTION; fLoadIdentity;
          fFrustum (f32_div (f32_of_int (WinWidth wt)) (f32_of_int (WinHeight wt)));
          fMatrixMode GL_MODELVIEW; fLoadIdentity; fTranslate]
       else [])
   ++ (if MakeNewTexture_flag wt then [fMakeNewTexture] else [])
   ++ [fClear GL_COLOR_DEPTH_BITS; fPushMatrix;
       fRotate (AngleY wt) 1 0 0; fRotate (AngleX wt) 0 1 0; fScale;
       fDrawObject; fPopMatrix]
   ++ lock_calls Locking MultiDisplays
   ++ [fSwapBuffers (Dpy wt) (Win wt)]
   ++ unlock_calls Locking MultiDisplays,
   drawn wt).

(** ** [draw_object] *)

Definition GL_QUADS : Z := 7.

Inductive ocall :=
| oPushMatrix
| oPopMatrix
| oScale                     (* glScalef(0.75, 0.75, 0.75) *)
| oColor (r g b : Z)         (* glColor3f with 0/1 arguments *)
| oBindTexture (target texture : Z)
| oEnable (cap : Z)
| oDisable (cap : Z)
| oBegin (mode : Z)
| oEnd
| oTexCoord (s t : Z)
| oVertex (x y z : Z).

Definition vtx (v : Z * Z * Z) : ocall :=
  let '(x, y, z) := v in oVertex x y z.

(** One face as the source writes each: a colour, then four vertices with
    texture coordinates (0,0), (1,0), (1,1), (0,1). *)
Definition quad_face (r g b : Z) (v0 v1 v2 v3 : Z * Z * Z) : list ocall :=
  [oColor r g b;
   oTexCoord 0 0; vtx v0; oTexCoord 1 0; vtx v1;
   oTexCoord 1 1; vtx v2; oTexCoord 0 1; vtx v3].

Definition draw_object (Texture : bool) : list ocall :=
  [oPushMatrix; oScale; oColor 1 0 0]
  ++ (if Texture then [oBindTexture GL_TEXTURE_2D TexObj; oEnable GL_TEXTURE_2D]
      else [oDisable GL_TEXTURE_2D])
  ++ [oBegin GL_QUADS]
  ++ quad_face 0 1 1 (-1, -1, -1) (-1, 1, -1) (-1, 1, 1) (-1, -1, 1)   (* -X *)
  ++ quad_face 1 0 0 (1, -1, -1) (1, 1, -1) (1, 1, 1) (1, -1, 1)       (* +X *)
  ++ quad_face 1 0 1 (-1, -1, -1) (1, -1, -1) (1, -1, 1) (-1, -1, 1)   (* -Y *)
  ++ quad_face 0 1 0 (-1, 1, -1) (1, 1, -1) (1, 1, 1) (-1, 1, 1)       (* +Y *)
  ++ quad_face 1 1 0 (-1, -1, -1) (1, -1, -1) (1, 1, -1) (-1, 1, -1)   (* -Z *)
  ++ quad_face 0 0 1 (-1, -1, 1) (1, -1, 1) (1, 1, 1) (-1, 1, 1)       (* the second "+Y" *)
  ++ [oEnd; oPopMatrix].

(** ** Definitions for the statements and proofs below *)

Definition precedes {A} (a b : A) (l : list A) : Prop :=
  exists l1 l2 l3, l = l1 ++ a :: l2 ++ b :: l3.

Definition is_destroy (r : res_call) : bool :=
  match r with glXDestroyContext _ _ | XDestroyWindow _ _ => true | _ => false end.

Definition is_close (r : res_call) : bool :=
  match r with XCloseDisplay _ => true | _ => false end.

Definition destroy_pair (wt : winthread) : list res_call :=
  [glXDestroyContext (Dpy wt) (Context wt); XDestroyWindow (Dpy wt) (Win wt)].

Definition unit_ok (e : env) (multi : bool) (i : nat) : Prop :=
  (multi = true -> unit_display_ok e i = true) /\ create_window e i = None.

(** The binary32 values [0.5] and [1.0]. *)
Definition f32_half : spec_float := S754_finite false 8388608 (-24).
Definition f32_one : spec_float := S754_finite false 8388608 (-23).

Definition count (p : obs -> bool) (tr : list obs) : nat := List.length (filter p tr).

Definition is_acq (i : nat) (o : obs) : bool :=
  match o with O_Acquire j => Nat.eqb i j | _ => false end.
Definition is_draw (i : nat) (o : obs) : bool :=
  match o with O_Draw j => Nat.eqb i j | _ => false end.
Definition is_swap (i : nat) (o : obs) : bool :=
  match o with O_Swap j => Nat.eqb i j | _ => false end.
Definition is_rel (i : nat) (o : obs) : bool :=
  match o with O_Effect (UnlockReady j) => Nat.eqb i j | _ => false end.

(** Once the exit flag has been set, a unit that acquires its gate stays
    at the check after the gate (or has left its loop) and neither draws
    nor presents. *)
Definition exit_inv (i : nat) (s : sys) : Prop :=
  (In (O_Effect SetExitFlag) (trace s) -> ExitFlag s = true) /\
  (forall tr1 tr2, trace s = tr2 ++ O_Acquire i :: tr1 ->
     In (O_Effect SetExitFlag) tr1 ->
     ExitFlag s = true /\
     (nth_error (pcs s) i = Some U_Check \/ nth_error (pcs s) i = Some U_Done) /\
     ~ In (O_Draw i) tr2 /\ ~ In (O_Swap i) tr2).

(** A run: unit 0 reaches its gate, Escape is pressed, the dispatcher
    sets the flag and releases the gate, and unit 0 acquires it. *)
Definition c2_sched : list choice :=
  [CUnit 0; CEvent (KeyPress 7 XK_Escape); CDisp; CDisp; CUnit 0].

(** Whether unit [i] holds an acquisition of its gate not yet used by
    the drawing block ([pc_drawing]) or by the buffer swap
    ([pc_presenting]). *)
Definition pc_drawing (o : option upc) : nat :=
  match o with Some U_Check | Some U_Draw => 1 | _ => 0 end.
Definition pc_presenting (o : option upc) : nat :=
  match o with Some U_Check | Some U_Draw | Some U_Swap => 1 | _ => 0 end.
(** 1 when unit [i]'s gate [Ready] is unlocked. *)
Definition gate_open (s : sys) (i : nat) : nat :=
  if nth i (ready s) true then 0 else 1.
(** Each draw and each present of unit [i] uses up one acquisition of
    its gate, and each acquisition one release. *)
Definition count_inv (i : nat) (s : sys) : Prop :=
  (count (is_draw i) (trace s) + pc_drawing (nth_error (pcs s) i)
     <= count (is_acq i) (trace s))%nat /\
  (count (is_swap i) (trace s) + pc_presenting (nth_error (pcs s) i)
     <= count (is_acq i) (trace s))%nat /\
  (count (is_acq i) (trace s) + gate_open s i <= count (is_rel i) (trace s))%nat.

(** Between two presents of unit [i] lies an acquisition of its gate. *)
Definition swap_inv (i : nat) (s : sys) : Prop :=
  (pc_presenting (nth_error (pcs s) i) = 1%nat ->
   forall tr1 tr2, trace s = tr2 ++ O_Swap i :: tr1 -> In (O_Acquire i) tr2) /\
  (forall tr1 tr2 tr3, trace s = tr3 ++ O_Swap i :: tr2 ++ O_Swap i :: tr1 ->
     In (O_Acquire i) tr2).

(** C10 as stated: between two presents of a unit the dispatcher has
    released that unit's gate. *)
Definition release_between_presents (A T : bool) (u0 : list winthread) : Prop :=
  forall s i tr1 tr2 tr3,
    reachable A T u0 s ->
    trace s = tr3 ++ O_Swap i :: tr2 ++ O_Swap i :: tr1 ->
    In (O_Effect (UnlockReady i)) tr2.

(** Two [Expose] events release unit 0's gate twice before its first
    present; the second release lets it through the gate again. *)
Definition c10_sched : list choice :=
  [CUnit 0; CEvent (Expose 7); CDisp; CUnit 0; CUnit 0; CEvent (Expose 7); CDisp;
   CUnit 0; CUnit 0; CUnit 0; CUnit 0; CUnit 0; CUnit 0; CUnit 0; CUnit 0].






(** The events whose handling releases a gate. *)
Definition releasing_event (ev : xevent) : bool :=
  match ev with
  | ConfigureNotify _ _ _ | MotionNotify _ _ _ _ | ButtonRelease _ | Expose _ => true
  | KeyPress _ k => Z.eqb k XK_Escape
  | _ => false
  end.

(** Two window rectangles [(x, y, width, height)] share no pixel. *)
Definition rects_disjoint (r1 r2 : Z * Z * Z * Z) : Prop :=
  let '(x1, y1, w1, h1) := r1 in
  let '(x2, y2, w2, h2) := r2 in
  x1 + w1 <= x2 \/ x2 + w2 <= x1 \/ y1 + h1 <= y2 \/ y2 + h2 <= y1.

(** The record [create_window] leaves for unit [i] on the success path of
    [main]'s setup, starting from a zero entry. *)
Definition initial_unit (dpy : Z) (i : nat) (win ctx : Z) : winthread :=
  mkWinthread dpy (Z.of_nat i) win ctx f_zero f_zero cw_width cw_height
              true false false 0 0.

(** The fields no handler and no render thread writes. *)
Definition ident (wt : winthread) : Z * Z * Z * Z :=
  (Dpy wt, Index wt, Win wt, Context wt).

Definition fcount (p : fcall -> bool) (l : list fcall) : nat :=
  List.length (filter p l).

Definition is_make_tex (f : fcall) : bool :=
  match f with fMakeNewTexture => true | _ => false end.
Definition is_swap_call (f : fcall) : bool :=
  match f with fSwapBuffers _ _ => true | _ => false end.
Definition is_viewport (f : fcall) : bool :=
  match f with fViewport _ _ _ _ => true | _ => false end.
Definition is_frustum (f : fcall) : bool :=
  match f with fFrustum _ => true | _ => false end.
Definition is_print (f : fcall) : bool :=
  match f with fPrintRenderer _ => true | _ => false end.

(** The vertices passed to [glVertex3f], in order, and their grouping
    into the quads of [GL_QUADS]. *)
Fixpoint vertices (l : list ocall) : list (Z * Z * Z) :=
  match l with
  | [] => []
  | oVertex x y z :: l' => (x, y, z) :: vertices l'
  | _ :: l' => vertices l'
  end.

Fixpoint quads (vs : list (Z * Z * Z)) : list (list (Z * Z * Z)) :=
  match vs with
  | a :: b :: c :: d :: vs' => [a; b; c; d] :: quads vs'
  | _ => []
  end.

Definition coord (a : nat) (v : Z * Z * Z) : Z :=
  let '(x, y, z) := v in
  match a with O => x | 1%nat => y | _ => z end.

(** [q] is the face of the cube [[-1,1]^3] where coordinate [a] equals
    [s]: four distinct corners of the cube, all with that coordinate. *)
Definition on_face (a : nat) (s : Z) (q : list (Z * Z * Z)) : Prop :=
  List.length q = 4%nat /\ NoDup q /\
  Forall (fun v => coord a v = s /\
                   forall b, (b < 3)%nat -> coord b v = -1 \/ coord b v = 1) q.

(** No unit has its [MakeNewTexture] flag set. *)
Definition no_tex_flag (ws : list winthread) : Prop :=
  Forall (fun wt => MakeNewTexture_flag wt = false) ws.

(** The table invariant: the unit records keep their identity fields,
    the per-unit lists keep the table's length, and every pending gate
    release names a unit of the table. *)
Definition table_inv (u0 : list winthread) (s : sys) : Prop :=
  map ident (units s) = map ident u0 /\
  List.length (pcs s) = List.length u0 /\
  List.length (ready s) = List.length u0 /\
  (forall j, In (UnlockReady j) (disp s) -> (j < List.length u0)%nat).

(** In animation mode nobody takes [CondMutex] and no unit waits for the
    redraw signal. *)
Definition anim_inv (s : sys) : Prop :=
  CondMutexHeld s = false /\ ~ In LockCondMutex (disp s) /\
  (forall i, nth_error (pcs s) i <> Some U_CondWait /\
             nth_error (pcs s) i <> Some U_CondWake) /\
  (forall i, ~ In (O_Wait i) (trace s)).

(** Animation mode: unit 0 passes its gate after an [Expose], draws,
    presents, sleeps and is back at the loop test. *)
Definition anim_sched : list choice :=
  [CUnit 0; CEvent (Expose 7); CDisp; CUnit 0; CUnit 0; CUnit 0; CUnit 0; CUnit 0;
   CUnit 0].

(** No texturing: the [t] key, then an [Expose] and one frame of unit 0. *)
Definition t_key_sched : list choice :=
  [CUnit 0; CEvent (KeyPress 7 XK_t); CEvent (Expose 7); CDisp;
   CUnit 0; CUnit 0; CUnit 0].

(** ** Lemmas on the table operations *)

Lemma upd_length : forall A (l : list A) i f, List.length (upd l i f) = List.length l.
Proof. induction l; intros [|i] f; simpl; auto. Qed.

Lemma nth_error_upd_same : forall A (l : list A) i f x,
  nth_error l i = Some x -> nth_error (upd l i f) i = Some (f x).
Proof.
  induction l as [|y l IH]; intros [|i] f x H; simpl in *; try discriminate.
  - congruence.
  - apply IH; exact H.
Qed.

Lemma nth_error_upd_other : forall A (l : list A) i j f,
  j <> i -> nth_error (upd l i f) j = nth_error l j.
Proof.
  induction l as [|y l IH]; intros [|i] [|j] f H; simpl; auto; try congruence.
Qed.

Lemma nth_upd_other : forall A (l : list A) i j f d,
  j <> i -> nth j (upd l i f) d = nth j l d.
Proof.
  induction l as [|y l IH]; intros [|i] [|j] f d H; simpl; auto; try congruence.
Qed.

Lemma find_unit_nodup : forall ws i wt,
  NoDup (map Win ws) -> nth_error ws i = Some wt -> find_unit ws (Win wt) = Some i.
Proof.
  induction ws as [|u ws IH]; intros [|i] wt Hnd H; simpl in *; try discriminate.
  - injection H as <-. rewrite Z.eqb_refl. reflexivity.
  - inversion Hnd as [|? ? Hnotin Hnd']; subst.
    destruct (Z.eqb_spec (Win u) (Win wt)) as [E|E].
    + exfalso. apply Hnotin. rewrite E. apply in_map. eapply nth_error_In; eauto.
    + rewrite (IH i wt Hnd' H). reflexivity.
Qed.

(** ** C1: the exit key *)

(** C1. The exit key pressed in a unit's window: the handler issues, in
    this order, [signal_redraw] (lock [CondMutex], broadcast, unlock) if
    not animating, then [ExitFlag = GL_TRUE], then the release of the gate
    of each of the [NumWinThreads] units, and nothing else; the unit table
    is not changed and no drawing happens. *)
Theorem escape_key_effects : forall Animate Texture ws w i,
  find_unit ws w = Some i ->
  handle_event Animate Texture ws (KeyPress w XK_Escape) =
  (ws, (if Animate then [] else [LockCondMutex; CondBroadcast; UnlockCondMutex])
         ++ SetExitFlag :: map UnlockReady (seq 0 (List.length ws))).
Proof.
  intros Animate Texture ws w i H. simpl. rewrite H.
  unfold keypress. rewrite Z.eqb_refl. destruct Animate; reflexivity.
Qed.

Lemma escape_key_effects_witness :
  find_unit [sample_unit 1 7; sample_unit 1 8] 8 = Some 1%nat /\
  handle_event false false [sample_unit 1 7; sample_unit 1 8] (KeyPress 8 XK_Escape) =
  ([sample_unit 1 7; sample_unit 1 8],
   [LockCondMutex; CondBroadcast; UnlockCondMutex; SetExitFlag;
    UnlockReady 0; UnlockReady 1]).
Proof.
  split; [reflexivity|].
  apply (escape_key_effects false false [sample_unit 1 7; sample_unit 1 8] 8 1).
  reflexivity.
Defined.

(** ** C6: resize events *)

(** C6. A [ConfigureNotify] for the window of unit [i] (windows being
    distinct) sets that unit's size and [NewSize], and releases only its
    gate; every other entry of the table is unchanged. *)
Theorem configure_only_owner : forall Animate Texture ws i wt width height,
  NoDup (map Win ws) -> nth_error ws i = Some wt ->
  let r := handle_event Animate Texture ws (ConfigureNotify (Win wt) width height) in
  nth_error (fst r) i = Some (resize wt width height) /\
  NewSize (resize wt width height) = true /\
  WinWidth (resize wt width height) = width /\
  WinHeight (resize wt width height) = height /\
  (forall j, j <> i -> nth_error (fst r) j = nth_error ws j) /\
  List.length (fst r) = List.length ws /\
  snd r = resize_effects Animate ++ [UnlockReady i].
Proof.
  intros Animate Texture ws i wt width height Hnd H r.
  unfold r; simpl. rewrite (find_unit_nodup ws i wt Hnd H). simpl.
  repeat split.
  - exact (nth_error_upd_same _ ws i (fun u => resize u width height) wt H).
  - intros j Hj. apply nth_error_upd_other; exact Hj.
  - apply upd_length.
Qed.

Lemma configure_only_owner_witness :
  NoDup (map Win [sample_unit 1 7; sample_unit 1 8]) /\
  nth_error [sample_unit 1 7; sample_unit 1 8] 1 = Some (sample_unit 1 8) /\
  nth_error (fst (handle_event true false [sample_unit 1 7; sample_unit 1 8]
                    (ConfigureNotify (Win (sample_unit 1 8)) 300 200))) 0
  = Some (sample_unit 1 7).
Proof.
  assert (Hnd : NoDup (map Win [sample_unit 1 7; sample_unit 1 8])).
  { simpl. constructor; [simpl; intros [H|H]; [discriminate|exact H]|].
    constructor; [intros []|constructor]. }
  split; [exact Hnd|]. split; [reflexivity|].
  destruct (configure_only_owner true false [sample_unit 1 7; sample_unit 1 8]
              1 (sample_unit 1 8) 300 200 Hnd eq_refl)
    as (_ & _ & _ & _ & Hother & _).
  apply Hother. discriminate.
Defined.

(** ** Lemmas on the option loop *)

Ltac str_neq :=
  repeat match goal with
  | H : ?a <> ?s |- context [String.eqb ?a ?s] =>
      rewrite (proj2 (String.eqb_neq a s) H)
  | H : ?a <> ?s, H' : context [String.eqb ?a ?s] |- _ =>
      rewrite (proj2 (String.eqb_neq a s) H) in H'
  end.

Ltac str_cases a :=
  destruct (String.eqb_spec a "-display"%string) as [->|?];
  [|destruct (String.eqb_spec a "-p"%string) as [->|?];
  [|destruct (String.eqb_spec a "-l"%string) as [->|?];
  [|destruct (String.eqb_spec a "-t"%string) as [->|?];
  [|destruct (String.eqb_spec a "-n"%string) as [->|?]]]]];
  cbn -[parse_loop] in *; str_neq.

(** One turn of the option loop. *)
Lemma parse_loop_eq2 : forall c a b rest,
  parse_loop c (a :: b :: rest) =
  if String.eqb a "-display" then
    parse_loop (mkConfig (Some b) (numThreads c) (cfg_MultiDisplays c)
                         (cfg_Locking c) (cfg_Texture c)) rest
  else if String.eqb a "-p" then
    parse_loop (mkConfig (displayName c) (numThreads c) true
                         (cfg_Locking c) (cfg_Texture c)) (b :: rest)
  else if String.eqb a "-l" then
    parse_loop (mkConfig (displayName c) (numThreads c)
                         (cfg_MultiDisplays c) true (cfg_Texture c)) (b :: rest)
  else if String.eqb a "-t" then
    parse_loop (mkConfig (displayName c) (numThreads c)
                         (cfg_MultiDisplays c) (cfg_Locking c) true) (b :: rest)
  else if String.eqb a "-n" then
    parse_loop (mkConfig (displayName c) (clamp_threads (atoi b))
                         (cfg_MultiDisplays c) (cfg_Locking c)
                         (cfg_Texture c)) rest
  else ParseExit 1.
Proof. reflexivity. Qed.

Lemma parse_loop_unrecognized : forall c a rest,
  unrecognized a -> parse_loop c (a :: rest) = ParseExit 1.
Proof.
  intros c a rest (H1 & H2 & H3 & H4 & H5).
  destruct rest as [|b rest]; simpl; str_neq; reflexivity.
Qed.

Lemma parse_loop_app : forall pre c c' l,
  parse_loop c pre = ParseOk c' -> parse_loop c (pre ++ l) = parse_loop c' l.
Proof.
  assert (Hn : forall n pre c c' l, (List.length pre <= n)%nat ->
            parse_loop c pre = ParseOk c' -> parse_loop c (pre ++ l) = parse_loop c' l).
  { induction n as [|n IH]; intros [|a pre] c c' l Hlen H.
    - simpl in H. injection H as <-. reflexivity.
    - simpl in Hlen. lia.
    - simpl in H. injection H as <-. reflexivity.
    - destruct pre as [|b pre].
      + destruct l as [|x l].
        * simpl. exact H.
        * simpl app. rewrite parse_loop_eq2. simpl in H.
          str_cases a; try discriminate; try (injection H as <-; reflexivity).
      + simpl app. rewrite parse_loop_eq2. rewrite parse_loop_eq2 in H.
        simpl in Hlen. str_cases a; try discriminate;
          rewrite ?app_comm_cons; apply IH; simpl; try lia; exact H. }
  intros pre c c' l. exact (Hn (List.length pre) pre c c' l (le_n _)).
Qed.

Lemma parse_loop_threads_bound : forall args c c',
  (1 <= numThreads c <= MAX_WINTHREADS) ->
  parse_loop c args = ParseOk c' -> 1 <= numThreads c' <= MAX_WINTHREADS.
Proof.
  assert (Hclamp : forall n, 1 <= clamp_threads n <= MAX_WINTHREADS).
  { intros n. unfold clamp_threads, MAX_WINTHREADS.
    destruct (Z.ltb_spec n 1); [lia|]. destruct (Z.gtb_spec n 100); lia. }
  assert (Hn : forall n args c c', (List.length args <= n)%nat ->
            (1 <= numThreads c <= MAX_WINTHREADS) ->
            parse_loop c args = ParseOk c' -> 1 <= numThreads c' <= MAX_WINTHREADS).
  { induction n as [|n IH]; intros [|a args] c c' Hlen Hc H.
    - simpl in H. injection H as <-. exact Hc.
    - simpl in Hlen. lia.
    - simpl in H. injection H as <-. exact Hc.
    - destruct args as [|b args].
      + simpl in H. str_cases a; try discriminate; injection H as <-; exact Hc.
      + rewrite parse_loop_eq2 in H. simpl in Hlen.
        str_cases a; try discriminate;
          (eapply IH; [| |exact H]; simpl; [lia|auto]). }
  intros args c c'. exact (Hn (List.length args) args c c' (le_n _)).
Qed.

Lemma parse_args_cons : forall x l,
  parse_args (x :: l) =
  (if is_flag_error (parse_loop default_config (x :: l)) then [Usage] else [],
   parse_loop default_config (x :: l)).
Proof. reflexivity. Qed.

(** Examples of [atoi]. *)
Example atoi_zero : atoi "0"%string = 0. Proof. reflexivity. Qed.
Example atoi_word : atoi "abc"%string = 0. Proof. reflexivity. Qed.
Example atoi_neg : atoi " -7"%string = -7. Proof. reflexivity. Qed.
Example atoi_big : atoi "250"%string = 250. Proof. reflexivity. Qed.
(** Above [INT_MAX] the conversion to [int] keeps the low 32 bits. *)
Example atoi_wrap : atoi "4294967297"%string = 1. Proof. vm_compute. reflexivity. Qed.

(** ** C7: the thread count *)

(** C7. [-n s] sets the thread count to [atoi(s)] clamped into
    [1 .. MAX_WINTHREADS] (= 100): below 1 (0, negative, or a string
    [atoi] reads as 0) it is 1, above 100 it is 100, else [atoi(s)]; every
    accepted command line yields a count in [1 .. 100]. *)
Theorem n_flag_thread_count : forall s,
  parse_args ["-n"; s]%string =
    ([], ParseOk (mkConfig None (clamp_threads (atoi s)) false false false)) /\
  1 <= clamp_threads (atoi s) <= MAX_WINTHREADS /\
  (atoi s < 1 -> clamp_threads (atoi s) = 1) /\
  (MAX_WINTHREADS < atoi s -> clamp_threads (atoi s) = MAX_WINTHREADS) /\
  (1 <= atoi s <= MAX_WINTHREADS -> clamp_threads (atoi s) = atoi s) /\
  (forall c rest, parse_loop c ("-n" :: s :: rest)%string =
     parse_loop (mkConfig (displayName c) (clamp_threads (atoi s))
                  (cfg_MultiDisplays c) (cfg_Locking c) (cfg_Texture c)) rest) /\
  (forall args c, snd (parse_args args) = ParseOk c ->
     1 <= numThreads c <= MAX_WINTHREADS).
Proof.
  intros s. unfold clamp_threads, MAX_WINTHREADS.
  split; [reflexivity|].
  split; [destruct (Z.ltb_spec (atoi s) 1); [lia|];
          destruct (Z.gtb_spec (atoi s) 100); lia|].
  split; [intros H; destruct (Z.ltb_spec (atoi s) 1); lia|].
  split; [intros H; destruct (Z.ltb_spec (atoi s) 1); [lia|];
          destruct (Z.gtb_spec (atoi s) 100); lia|].
  split; [intros H; destruct (Z.ltb_spec (atoi s) 1); [lia|];
          destruct (Z.gtb_spec (atoi s) 100); lia|].
  split; [intros c rest; reflexivity|].
  intros [|a args] c H; simpl in H.
  - injection H as <-. simpl. lia.
  - apply (parse_loop_threads_bound (a :: args) default_config c);
      [simpl; unfold MAX_WINTHREADS; lia|exact H].
Qed.

(** ** C8: no arguments, unknown flags *)

(** C8. Without arguments [main] prints the usage text and continues with
    2 threads, one shared connection, [XLockDisplay] locking and no
    texturing; an unrecognised flag (after correctly formed options)
    prints the usage text and exits with status 1. *)
Theorem usage_defaults_and_bad_flag :
  parse_args [] = ([Usage], ParseOk (mkConfig None 2 false false false)) /\
  main env_all_ok [] = Exited 0 /\
  (forall pre a rest c,
     parse_loop default_config pre = ParseOk c -> unrecognized a ->
     parse_args (pre ++ a :: rest) = ([Usage], ParseExit 1) /\
     (forall e, main e (pre ++ a :: rest) = Exited 1)).
Proof.
  split; [reflexivity|]. split; [reflexivity|].
  intros pre a rest c Hpre Ha.
  assert (Hl : parse_loop default_config (pre ++ a :: rest) = ParseExit 1).
  { rewrite (parse_loop_app pre default_config c (a :: rest) Hpre).
    apply parse_loop_unrecognized; exact Ha. }
  assert (Hp : parse_args (pre ++ a :: rest) = ([Usage], ParseExit 1)).
  { destruct pre as [|x pre].
    - simpl app in *. rewrite parse_args_cons, Hl. reflexivity.
    - rewrite <- app_comm_cons in *. rewrite parse_args_cons, Hl. reflexivity. }
  split; [exact Hp|].
  intros e. unfold main. rewrite Hp. reflexivity.
Qed.

Lemma usage_defaults_and_bad_flag_witness :
  parse_args ["-t"; "-x"]%string = ([Usage], ParseExit 1).
Proof.
  destruct usage_defaults_and_bad_flag as (_ & _ & H).
  apply (H ["-t"]%string "-x"%string [] (mkConfig None 2 false false true)).
  - reflexivity.
  - unfold unrecognized. repeat split; discriminate.
Defined.

(** ** C5: order of the shutdown calls *)

(** C5. Shutdown first joins every render thread, then destroys, unit by
    unit, the context and then the window, and only then closes the
    connections: each unit's own one in [-p] mode, else the shared one. *)
Theorem shutdown_order : forall multi dpy ws,
  exists lj ld lc,
    shutdown multi dpy ws = lj ++ ld ++ lc /\
    lj = map pthread_join (seq 0 (List.length ws)) /\
    (forall r, In r ld -> is_destroy r = true) /\
    (forall r, In r lc -> is_close r = true) /\
    (forall wt, In wt ws ->
       precedes (glXDestroyContext (Dpy wt) (Context wt))
                (XDestroyWindow (Dpy wt) (Win wt)) ld) /\
    (if multi then forall wt, In wt ws -> In (XCloseDisplay (Dpy wt)) lc
     else lc = [XCloseDisplay dpy]).
Proof.
  intros multi dpy ws.
  exists (map pthread_join (seq 0 (List.length ws))), (flat_map destroy_pair ws),
         (if multi then map (fun wt => XCloseDisplay (Dpy wt)) ws
          else [XCloseDisplay dpy]).
  split; [unfold shutdown, clean_up; rewrite app_assoc; reflexivity|].
  split; [reflexivity|].
  split.
  { intros r Hr. apply in_flat_map in Hr as (wt & _ & Hr).
    simpl in Hr. destruct Hr as [<-|[<-|[]]]; reflexivity. }
  split.
  { intros r Hr. destruct multi.
    - apply in_map_iff in Hr as (wt & <- & _). reflexivity.
    - destruct Hr as [<-|[]]. reflexivity. }
  split.
  { intros wt Hin. apply in_split in Hin as (l1 & l2 & ->).
    exists (flat_map destroy_pair l1), [], (flat_map destroy_pair l2).
    rewrite flat_map_app. reflexivity. }
  destruct multi; [|reflexivity].
  intros wt Hin. apply in_map_iff. exists wt. split; [reflexivity|exact Hin].
Qed.

(** ** C4: exit status *)

Lemma setup_units_ok : forall e multi l,
  (forall i, In i l -> unit_ok e multi i) -> setup_units e multi l = None.
Proof.
  intros e multi l. induction l as [|i l IH]; intros H; simpl; [reflexivity|].
  destruct (H i (or_introl eq_refl)) as [Hd Hc].
  destruct multi; simpl.
  - rewrite (Hd eq_refl), Hc. simpl. apply IH. intros j Hj. apply H. right; exact Hj.
  - rewrite Hc. apply IH. intros j Hj. apply H. right; exact Hj.
Qed.

Lemma setup_units_fail : forall e multi l k l',
  (forall i, In i l -> unit_ok e multi i) ->
  (multi = true -> unit_display_ok e k = true) ->
  (visual_ok e k = false \/ window_ok e k = false \/ context_ok e k = false) ->
  setup_units e multi (l ++ k :: l') = Some (Exited 1).
Proof.
  intros e multi l k l' H Hd Hf. induction l as [|i l IH]; simpl.
  - assert (Hm : multi && negb (unit_display_ok e k) = false).
    { destruct multi; [rewrite (Hd eq_refl)|]; reflexivity. }
    rewrite Hm. unfold create_window.
    destruct Hf as [Hf|[Hf|Hf]]; rewrite Hf; simpl;
      [reflexivity| |]; destruct (visual_ok e k); simpl; try reflexivity;
      rewrite ?Hf; simpl; destruct (window_ok e k); reflexivity.
  - destruct (H i (or_introl eq_refl)) as [Hdi Hci].
    assert (Hm : multi && negb (unit_display_ok e i) = false).
    { destruct multi; [rewrite (Hdi eq_refl)|]; reflexivity. }
    rewrite Hm, Hci. apply IH. intros j Hj. apply H. right; exact Hj.
Qed.

(** Counterexample to C4: the shared display cannot be opened; [main]
    returns [-1], so the exit status is 255, not 1. *)
Lemma exit_status_display_cex :
  main env_no_display [] = Exited 255 /\ main env_no_display [] <> Exited 1.
Proof. split; [reflexivity|discriminate]. Qed.

(** [pthread_mutex_init] and [pthread_mutex_lock] report failure with an
    error number, never [-1]; with [ENOMEM] (12) from [pthread_mutex_init]
    the check in [create_window] passes and the program runs on. *)
Example mutex_init_failure_unseen :
  main (mkEnv true (fun _ => true) (fun _ => true) (fun _ => true)
              (fun _ => true) (fun _ => 12) (fun _ => 0)) [] = Exited 0.
Proof. reflexivity. Qed.

(** C4 (amended). After a normal shutdown the status is 0; when no
    visual, window or context can be obtained for a unit (all earlier
    units set up) [Error] exits with 1; when the single shared display
    connection cannot be opened [main] returns -1, exit status 255. *)
Theorem exit_status_amended : forall e args c,
  snd (parse_args args) = ParseOk c ->
  ((cfg_MultiDisplays c = true \/ open_display_ok e = true) ->
   (forall i, (i < Z.to_nat (numThreads c))%nat -> unit_ok e (cfg_MultiDisplays c) i) ->
   main e args = Exited 0) /\
  (cfg_MultiDisplays c = false -> open_display_ok e = false ->
   main e args = Exited 255) /\
  (forall k, (k < Z.to_nat (numThreads c))%nat ->
   (cfg_MultiDisplays c = true \/ open_display_ok e = true) ->
   (forall i, (i < k)%nat -> unit_ok e (cfg_MultiDisplays c) i) ->
   (cfg_MultiDisplays c = true -> unit_display_ok e k = true) ->
   (visual_ok e k = false \/ window_ok e k = false \/ context_ok e k = false) ->
   main e args = Exited 1).
Proof.
  intros e args c Hp.
  assert (Hd : (cfg_MultiDisplays c = true \/ open_display_ok e = true) ->
             negb (cfg_MultiDisplays c) && negb (open_display_ok e) = false).
  { intros [H|H]; rewrite H; [reflexivity|apply andb_false_r]. }
  unfold main. rewrite Hp.
  split; [|split].
  - intros Hdisp Hok. rewrite (Hd Hdisp).
    rewrite setup_units_ok; [reflexivity|].
    intros i Hi. apply in_seq in Hi. apply Hok. lia.
  - intros Hm Ho. rewrite Hm, Ho. reflexivity.
  - intros k Hk Hdisp Hok Hdk Hf. rewrite (Hd Hdisp).
    replace (Z.to_nat (numThreads c)) with (k + S (Z.to_nat (numThreads c) - S k))%nat
      by lia.
    rewrite seq_app. simpl (0 + k)%nat. simpl (seq k _).
    rewrite setup_units_fail; [reflexivity| |exact Hdk|exact Hf].
    intros i Hi. apply in_seq in Hi. apply Hok. lia.
Qed.

Lemma exit_status_amended_witness :
  main env_all_ok [] = Exited 0 /\ main (env_no_visual 1) [] = Exited 1.
Proof.
  destruct (exit_status_amended env_all_ok [] default_config eq_refl)
    as (H0 & _ & _).
  destruct (exit_status_amended (env_no_visual 1) [] default_config eq_refl)
    as (_ & _ & H1).
  split.
  - apply H0; [right; reflexivity|].
    intros i Hi. split; [discriminate|reflexivity].
  - apply (H1 1%nat); [simpl; lia|right; reflexivity| |discriminate|left; reflexivity].
    intros i Hi. split; [discriminate|].
    destruct i as [|i]; [reflexivity|lia].
Defined.

(** ** C9: texture regeneration *)

(** Counterexample to C9: render thread 0 loads [step] (0) for its
    [step += 0.5]; render thread 1 then regenerates twice (0.5, then 1.0);
    thread 0 stores 0 + 0.5.  After three regenerations [step] went from
    1.0 back to 0.5. *)
Lemma step_not_monotone_cex :
  rmw_run f_zero [mkTexThread 1 None; mkTexThread 2 None] [0; 1; 1; 1; 1; 0]%nat
  = Some [f_zero; f_zero; f_zero; f32_half; f32_half; f32_one; f32_half] /\
  SFltb f32_half f32_one = true.
Proof. split; vm_compute; reflexivity. Qed.

(** Run alone, one call stores the loaded value plus [0.5]. *)
Example step_sequential :
  rmw_run f_zero [mkTexThread 3 None] [0; 0; 0; 0; 0; 0]%nat
  = Some [f_zero; f_zero; f32_half; f32_half; f32_one; f32_one;
          S754_finite false 12582912 (-23)].
Proof. vm_compute. reflexivity. Qed.

Lemma tex_image_shape : forall cos step,
  List.length (tex_image cos step) = 128%nat /\
  Forall (fun row => List.length row = 128%nat /\
                     Forall (fun px => List.length px = 4%nat) row)
         (tex_image cos step).
Proof.
  intros cos step. unfold tex_image. split.
  - rewrite length_map, length_seq. reflexivity.
  - apply Forall_forall. intros row Hrow.
    apply in_map_iff in Hrow as (j & <- & _). split.
    + rewrite length_map, length_seq. reflexivity.
    + apply Forall_forall. intros px Hpx.
      apply in_map_iff in Hpx as (i & <- & _). reflexivity.
Qed.

(** C9 (amended).  A regeneration builds a 128x128 RGBA image from the
    value of [step] it reads and stores that value plus 0.5 (as a
    [float]) back into [step] with a non-atomic load/add/store; it then
    binds [TexObj] and queries its width: a width of 128 gives a
    sub-image update of the whole 128x128 area, a width of 0 linear
    min/mag filtering and a full 128x128 [glTexImage2D].  Either way the
    texture is 128 wide afterwards, so these are the only widths seen. *)
Theorem MakeNewTexture_amended : forall cos step width,
  width = 0 \/ width = TEX_SIZE ->
  MakeNewTexture cos step width =
    Some (f32_of_f64 (f64_add step lit_0_5),
          [glBindTexture GL_TEXTURE_2D TexObj;
           glGetTexLevelParameteriv GL_TEXTURE_2D 0 GL_TEXTURE_WIDTH]
          ++ (if Z.eqb width 0 then
                [glTexParameteri GL_TEXTURE_2D GL_TEXTURE_MIN_FILTER GL_LINEAR;
                 glTexParameteri GL_TEXTURE_2D GL_TEXTURE_MAG_FILTER GL_LINEAR;
                 glTexImage2D GL_TEXTURE_2D 0 GL_RGBA 128 128 0 GL_RGBA GL_FLOAT
                              (tex_image cos step)]
              else
                [glTexSubImage2D GL_TEXTURE_2D 0 0 0 128 128 GL_RGBA GL_FLOAT
                                 (tex_image cos step)]),
          TEX_SIZE) /\
  List.length (tex_image cos step) = 128%nat /\
  Forall (fun row => List.length row = 128%nat /\
                     Forall (fun px => List.length px = 4%nat) row)
         (tex_image cos step).
Proof.
  intros cos step width Hw.
  split; [|apply tex_image_shape].
  unfold MakeNewTexture. destruct Hw as [->| ->]; reflexivity.
Qed.

Lemma MakeNewTexture_amended_witness :
  exists r, MakeNewTexture (fun x => x) f_zero 0 = Some r.
Proof.
  eexists. apply (MakeNewTexture_amended (fun x => x) f_zero 0). left; reflexivity.
Defined.

(** ** Lemmas on the concurrent machine *)

Lemma run_reachable : forall A T u0 cs s s',
  reachable A T u0 s -> run A T s cs = Some s' -> reachable A T u0 s'.
Proof.
  intros A T u0 cs. induction cs as [|c cs IH]; intros s s' Hr Hrun; simpl in Hrun.
  - injection Hrun as <-. exact Hr.
  - destruct (exec A T s c) as [s1|] eqn:E; [|discriminate].
    apply (IH s1); [apply (reach_step A T u0 s c s1 Hr E)|exact Hrun].
Qed.

Lemma nth_error_upd_eq : forall A (l : list A) i f,
  nth_error (upd l i f) i = option_map f (nth_error l i).
Proof. induction l as [|x l IH]; intros [|i] f; simpl; auto. Qed.

Lemma nth_upd_eq : forall A (l : list A) i f d,
  nth i (upd l i f) d = if Nat.ltb i (List.length l) then f (nth i l d) else d.
Proof.
  induction l as [|x l IH]; intros [|i] f d; simpl; auto.
Qed.

(** Unfolds one step of the machine into its cases, each with the
    successor state written out. *)
Ltac exec_cases H :=
  lazymatch type of H with
  | exec _ _ ?s ?c = Some _ =>
    let j := fresh "j" in
    let ev := fresh "ev" in
    destruct c as [j|j| |ev]; cbn [exec] in H;
    [ unfold unit_step in H; destruct (nth_error (pcs s) j) as [[]|] eqn:?
    | unfold spurious_wake in H; destruct (nth_error (pcs s) j) as [[]|] eqn:?
    | unfold disp_step in H;
      let e := fresh "e" in
      destruct (disp s) as [|e ?rest] eqn:?; [|destruct e; unfold perform in H]
    | unfold take_event in H;
      destruct (disp s) eqn:?; [|discriminate];
      destruct (ExitFlag s) eqn:?; [discriminate|];
      destruct (handle_event _ _ (units s) ev) eqn:? ];
    try discriminate;
    cbv beta iota zeta in H;
    repeat match type of H with
           | context [if ?b then _ else _] => destruct b eqn:?
           end;
    try discriminate;
    injection H as <-
  end.

Ltac not_in_obs Hpi :=
  lazymatch goal with
  | |- ~ In _ [] => intros []
  | _ =>
    simpl; let Ho := fresh in intros [Ho|Ho];
    [ try (injection Ho; intros; subst; first [congruence | destruct Hpi; congruence]);
      discriminate
    | contradiction ]
  end.

Ltac pc_same Hpi :=
  lazymatch goal with
  | |- nth_error (upd (pcs ?s) ?j _) ?j = _ \/ _ =>
      rewrite nth_error_upd_eq;
      match goal with H : nth_error (pcs s) j = Some _ |- _ => rewrite H end;
      cbn [option_map];
      first [left; reflexivity | right; reflexivity | destruct Hpi; congruence]
  end.

Ltac pc_goal Hpi :=
  lazymatch goal with
  | |- nth_error (upd (pcs ?s) ?j _) ?j = _ \/ _ => pc_same Hpi
  | |- nth_error (upd (pcs ?s) ?j _) ?i = _ \/ _ =>
      destruct (Nat.eq_dec i j) as [->|?];
      [ pc_same Hpi | rewrite nth_error_upd_other by auto; exact Hpi ]
  | |- nth_error (map wake_all (pcs ?s)) ?i = _ \/ _ =>
      rewrite nth_error_map; destruct Hpi as [E|E]; rewrite E; [left|right]; reflexivity
  | _ => exact Hpi
  end.

Lemma exit_inv_step : forall A T i s c s', exit_inv i s -> exec A T s c = Some s' -> exit_inv i s'.
Proof.
  intros A T i s c s' [H1 H2] Hex.
  exec_cases Hex; unfold with_pc, acquire_gate, draw_block; cbn [trace pcs ExitFlag]; split.
  all: try (simpl; intros [Ho|Ho]; try discriminate; first [reflexivity|assumption|(apply H1 in Ho; congruence)]).
  all: intros tr1 tr2 Htr Hin; destruct tr2 as [|o tr2]; simpl in Htr;
      injection Htr as Ho Htr.
  all: cbn [ExitFlag pcs].
  all: lazymatch goal with
       | |- _ /\ _ /\ ~ In _ [] /\ _ =>
           first [ discriminate Ho
                 | subst;
           split; [first [assumption | apply H1; exact Hin | (apply H1 in Hin; congruence)]|split; [pc_goal Hin|split; intros []]] ]
       | _ =>
         subst o; destruct (H2 tr1 tr2 Htr Hin) as (Hx & Hpi & Hd & Hs);
         first
           [ discriminate Hx
           | split; [first [exact Hx | reflexivity | assumption | congruence]
                    | split; [pc_goal Hpi | split; not_in_obs Hpi]] ]
       end.
Qed.

Lemma exit_inv_reachable : forall A T u0 i s,
  reachable A T u0 s -> exit_inv i s.
Proof.
  intros A T u0 i s Hr. induction Hr as [|s c s' Hr IH Hex].
  - split; simpl; [intros []|intros tr1 tr2 Htr; destruct tr2; discriminate Htr].
  - exact (exit_inv_step A T i s c s' IH Hex).
Qed.

(** C2: once the exit flag has been set, a unit that acquires its gate
    finds [ProcessExitFlag] true: it sits at the check after the gate (or
    has already left its loop), its next step leaves the loop, and it has
    drawn and presented nothing since acquiring the gate. *)
Theorem shutdown_wake_exits : forall A T u0 s i tr1 tr2,
  reachable A T u0 s ->
  trace s = tr2 ++ O_Acquire i :: tr1 ->
  In (O_Effect SetExitFlag) tr1 ->
  ExitFlag s = true /\
  (nth_error (pcs s) i = Some U_Check \/ nth_error (pcs s) i = Some U_Done) /\
  (forall s', unit_step A s i = Some s' -> nth_error (pcs s') i = Some U_Done) /\
  ~ In (O_Draw i) tr2 /\ ~ In (O_Swap i) tr2.
Proof.
  intros A T u0 s i tr1 tr2 Hr Htr Hin.
  destruct (exit_inv_reachable A T u0 i s Hr) as [_ H2].
  destruct (H2 tr1 tr2 Htr Hin) as (Hx & Hpc & Hd & Hs).
  split; [exact Hx|split; [exact Hpc|split; [|split; assumption]]].
  intros s' Hst. unfold unit_step in Hst.
  destruct Hpc as [Hpc|Hpc]; rewrite Hpc in Hst; [|discriminate].
  rewrite Hx in Hst. injection Hst as <-. unfold with_pc; cbn [pcs].
  rewrite nth_error_upd_eq, Hpc. reflexivity.
Qed.

Lemma shutdown_wake_exits_witness :
  exists s,
    run true false (init_sys [sample_unit 1 7]) c2_sched = Some s /\
    (ExitFlag s = true /\
     (nth_error (pcs s) 0 = Some U_Check \/ nth_error (pcs s) 0 = Some U_Done) /\
     (forall s', unit_step true s 0 = Some s' -> nth_error (pcs s') 0 = Some U_Done) /\
     ~ In (O_Draw 0) [] /\ ~ In (O_Swap 0) []).
Proof.
  remember (run true false (init_sys [sample_unit 1 7]) c2_sched) as r eqn:E.
  destruct r as [s|]; [|vm_compute in E; discriminate E].
  exists s. split; [reflexivity|].
  apply (shutdown_wake_exits true false [sample_unit 1 7] s 0
           [O_Effect (UnlockReady 0); O_Effect SetExitFlag;
            O_Event (KeyPress 7 XK_Escape); O_Loop 0] []).
  - apply (run_reachable true false [sample_unit 1 7] c2_sched (init_sys [sample_unit 1 7]));
      [constructor | symmetry; exact E].
  - vm_compute in E. injection E as ->. reflexivity.
  - simpl; tauto.
Defined.

(** ** C10 and C3: gates, draws and presents *)

Lemma count_cons : forall p o tr,
  count p (o :: tr) = ((if p o then 1 else 0) + count p tr)%nat.
Proof. intros p o tr. unfold count. simpl. destruct (p o); reflexivity. Qed.

Ltac idx_on i j :=
  let Hij := fresh "Hij" in
  destruct (Nat.eq_dec i j) as [?Heq|Hij];
  [ subst j; rewrite ?Nat.eqb_refl, ?nth_error_upd_eq, ?nth_upd_eq
  | rewrite ?(proj2 (Nat.eqb_neq i j) Hij), ?nth_error_upd_other, ?nth_upd_other
      by congruence ].

Ltac idx_split i :=
  lazymatch goal with
  | |- context [upd _ ?j _] => idx_on i j
  | |- context [Nat.eqb i ?j] => idx_on i j
  | _ => idtac
  end.

Lemma count_inv_step : forall A T i s c s',
  count_inv i s -> exec A T s c = Some s' -> count_inv i s'.
Proof.
  intros A T i s c s' Hc Hex. unfold count_inv, gate_open in *.
  exec_cases Hex; unfold with_pc, acquire_gate, draw_block;
    cbn [trace pcs ready]; rewrite !count_cons; cbn [is_draw is_swap is_acq is_rel].
  all: idx_split i.
  all: try (rewrite nth_error_map; destruct (nth_error (pcs s) i) as [[]|]; cbn in *; lia).
  all: repeat match goal with
              | H : nth_error (pcs _) _ = _ |- _ => rewrite H in *; clear H
              | H : nth _ (ready _) true = _ |- _ => rewrite H in *; clear H
              end.
  all: cbn [option_map pc_drawing pc_presenting] in *.
  all: try (destruct (Nat.ltb _ _)); lia.
Qed.

Lemma init_gates_locked : forall u0 i, nth i (ready (init_sys u0)) true = true.
Proof.
  unfold init_sys; cbn [ready].
  induction u0 as [|x u0 IH]; intros [|i]; simpl; auto.
Qed.

Lemma count_inv_init : forall i u0, count_inv i (init_sys u0).
Proof.
  intros i u0. unfold count_inv, gate_open.
  rewrite init_gates_locked.
  unfold init_sys; cbn [trace pcs ready].
  rewrite nth_error_map. destruct (nth_error u0 i); cbn; lia.
Qed.

Lemma count_inv_reachable : forall A T u0 i s,
  reachable A T u0 s -> count_inv i s.
Proof.
  intros A T u0 i s Hr. induction Hr as [|s c s' Hr IH Hex].
  - apply count_inv_init.
  - exact (count_inv_step A T i s c s' IH Hex).
Qed.

Lemma swap_inv_step : forall A T i s c s',
  swap_inv i s -> exec A T s c = Some s' -> swap_inv i s'.
Proof.
  intros A T i s c s' [H1 H2] Hex. unfold swap_inv.
  exec_cases Hex; unfold with_pc, acquire_gate, draw_block; cbn [trace pcs]; split.
  all: idx_split i.
  all: try (rewrite nth_error_map; destruct (nth_error (pcs s) i) as [[]|] eqn:?).
  all: repeat match goal with
              | H : nth_error (pcs _) _ = _ |- _ => rewrite H in *; clear H
              end.
  all: cbn [option_map pc_presenting wake_all] in *.
  all: lazymatch goal with
       | |- _ = _ -> forall _ _ : list obs, _ =>
           let Hp := fresh "Hp" in
           intros Hp tr1 tr2 Htr;
           first
             [ discriminate Hp
             | destruct tr2 as [|o tr2]; simpl in Htr;
               [ exfalso; congruence
               | injection Htr as Ho Htr; subst o;
                 first [ left; reflexivity
                       | right; eapply H1; [first [reflexivity | exact Hp] | exact Htr] ] ] ]
       | |- forall _ _ _ : list obs, _ =>
           intros tr1 tr2 tr3 Htr; destruct tr3 as [|o tr3]; simpl in Htr;
           [ injection Htr as Ho Htr;
             first
               [ discriminate Ho
               | subst j; eapply H1;
                 [ match goal with H : nth_error (pcs _) _ = _ |- _ => rewrite H; reflexivity end
                 | exact Htr ] ]
           | injection Htr as Ho Htr; eapply H2; exact Htr ]
       end.
Qed.

Lemma swap_inv_reachable : forall A T u0 i s,
  reachable A T u0 s -> swap_inv i s.
Proof.
  intros A T u0 i s Hr. induction Hr as [|s c s' Hr IH Hex].
  - split; simpl.
    + intros _ tr1 tr2 Htr. destruct tr2; discriminate Htr.
    + intros tr1 tr2 tr3 Htr. destruct tr3; discriminate Htr.
  - exact (swap_inv_step A T i s c s' IH Hex).
Qed.

(** Counterexample to C10: in animation mode unit 0 presents twice with
    no gate release in between. *)
Lemma release_between_presents_cex :
  ~ release_between_presents true false [sample_unit 1 7].
Proof.
  intro H.
  destruct (run true false (init_sys [sample_unit 1 7]) c10_sched) as [s|] eqn:E;
    [|vm_compute in E; discriminate E].
  pose proof (run_reachable true false [sample_unit 1 7] c10_sched _ s
                (reach_init true false _) E) as Hr.
  vm_compute in E. injection E as E. subst s.
  pose proof (H _ 0%nat
    [O_Draw 0; O_Effect (UnlockReady 0); O_Event (Expose 7); O_Pass 0;
     O_Acquire 0; O_Effect (UnlockReady 0); O_Event (Expose 7); O_Loop 0]
    [O_Draw 0; O_Pass 0; O_Acquire 0; O_Loop 0; O_Sleep 0] [] Hr eq_refl) as Hin.
  simpl in Hin. intuition discriminate.
Qed.

(** C10 (amended). Every gate starts locked; a unit presents no more
    often than its gate is released; and between two presents of a unit
    the unit has acquired its gate. *)
Theorem present_needs_gate : forall A T u0 s i,
  reachable A T u0 s ->
  nth i (ready (init_sys u0)) true = true /\
  (count (is_swap i) (trace s) <= count (is_rel i) (trace s))%nat /\
  (forall tr1 tr2 tr3, trace s = tr3 ++ O_Swap i :: tr2 ++ O_Swap i :: tr1 ->
     In (O_Acquire i) tr2).
Proof.
  intros A T u0 s i Hr. split; [|split].
  - apply init_gates_locked.
  - destruct (count_inv_reachable A T u0 i s Hr) as (_ & Hs & Ha). lia.
  - exact (proj2 (swap_inv_reachable A T u0 i s Hr)).
Qed.

Lemma present_needs_gate_witness :
  exists s,
    run true false (init_sys [sample_unit 1 7]) c10_sched = Some s /\
    (nth 0 (ready (init_sys [sample_unit 1 7])) true = true /\
     (count (is_swap 0) (trace s) <= count (is_rel 0) (trace s))%nat /\
     (forall tr1 tr2 tr3, trace s = tr3 ++ O_Swap 0 :: tr2 ++ O_Swap 0 :: tr1 ->
        In (O_Acquire 0) tr2)).
Proof.
  destruct (run true false (init_sys [sample_unit 1 7]) c10_sched) as [s|] eqn:E;
    [|vm_compute in E; discriminate E].
  exists s. split; [reflexivity|].
  apply (present_needs_gate true false [sample_unit 1 7] s 0).
  exact (run_reachable true false [sample_unit 1 7] c10_sched _ s
           (reach_init true false _) E).
Defined.




(** ** Further properties of the program *)

Lemma map_upd : forall A B (g : A -> B) l i f,
  (forall x, g (f x) = g x) -> map g (upd l i f) = map g l.
Proof.
  intros A B g l. induction l as [|x l IH]; intros [|i] f Hf; simpl; auto.
  - rewrite Hf. reflexivity.
  - rewrite IH by exact Hf. reflexivity.
Qed.

Lemma Forall_upd : forall A (P : A -> Prop) l i f,
  (forall x, P x -> P (f x)) -> Forall P l -> Forall P (upd l i f).
Proof.
  intros A P l. induction l as [|x l IH]; intros [|i] f Hf Hl; simpl; auto;
    inversion Hl; subst; constructor; auto.
Qed.

Lemma find_unit_some : forall ws w i,
  find_unit ws w = Some i -> exists wt, nth_error ws i = Some wt /\ Win wt = w.
Proof.
  induction ws as [|u ws IH]; intros w i H; simpl in H; [discriminate|].
  destruct (Z.eqb_spec (Win u) w) as [E|E].
  - injection H as <-. exists u. auto.
  - destruct (find_unit ws w) as [k|] eqn:Ek; simpl in H; [|discriminate].
    injection H as <-. destruct (IH w k Ek) as (wt & Hn & Hw). exists wt. auto.
Qed.

Lemma find_unit_lt : forall ws w i, find_unit ws w = Some i -> (i < List.length ws)%nat.
Proof.
  intros ws w i H. destruct (find_unit_some ws w i H) as (wt & Hn & _).
  apply nth_error_Some. congruence.
Qed.

Lemma keypress_ident : forall A T ws i k ws' eff,
  keypress A T ws i k = (ws', eff) ->
  map ident ws' = map ident ws /\
  (forall j, In (UnlockReady j) eff -> (j < List.length ws)%nat).
Proof.
  intros A T ws i k ws' eff H. unfold keypress in H.
  destruct (Z.eqb k XK_Escape).
  - injection H as <- <-. split; [reflexivity|].
    intros j Hj. apply in_app_or in Hj. destruct Hj as [Hj|Hj].
    + destruct A; simpl in Hj; intuition discriminate.
    + destruct Hj as [Hj|Hj]; [discriminate|].
      apply in_map_iff in Hj. destruct Hj as (x & Hx & Hin).
      injection Hx as ->. apply in_seq in Hin. lia.
  - destruct (Z.eqb k XK_t || Z.eqb k XK_T); [destruct T|];
      try destruct (Z.eqb k XK_a || Z.eqb k XK_s || Z.eqb k XK_S);
      injection H as <- <-; (split; [try (apply map_upd; reflexivity); reflexivity|]);
      intros j Hj; destruct A; simpl in Hj; intuition discriminate.
Qed.

Lemma handle_event_ident : forall A T ws ev ws' eff,
  handle_event A T ws ev = (ws', eff) ->
  map ident ws' = map ident ws /\
  (forall j, In (UnlockReady j) eff -> (j < List.length ws)%nat).
Proof.
  intros A T ws ev ws' eff H.
  destruct ev as [w a b|w x y st|w x y|w|w|w k|]; simpl in H;
    try (destruct (find_unit ws w) as [i|] eqn:Ei);
    try (injection H as <- <-; split; [reflexivity|intros j Hj; simpl in Hj; contradiction]).
  - injection H as <- <-. split; [apply map_upd; reflexivity|].
    intros j Hj. apply in_app_or in Hj. destruct Hj as [Hj|[Hj|[]]].
    + destruct A; simpl in Hj; intuition discriminate.
    + injection Hj as <-. exact (find_unit_lt ws w i Ei).
  - injection H as <- <-. split; [destruct (any_button st); [apply map_upd|]; reflexivity|].
    intros j [Hj|[]]. injection Hj as <-. exact (find_unit_lt ws w i Ei).
  - injection H as <- <-. split; [apply map_upd; reflexivity|intros j []].
  - injection H as <- <-. split; [reflexivity|].
    intros j [Hj|[]]. injection Hj as <-. exact (find_unit_lt ws w i Ei).
  - injection H as <- <-. split; [reflexivity|].
    intros j [Hj|[]]. injection Hj as <-. exact (find_unit_lt ws w i Ei).
  - exact (keypress_ident A T ws i k ws' eff H).
Qed.

Lemma keypress_animate_quiet : forall T ws i k ws' eff,
  keypress true T ws i k = (ws', eff) -> ~ In LockCondMutex eff.
Proof.
  intros T ws i k ws' eff H. unfold keypress in H.
  destruct (Z.eqb k XK_Escape).
  - injection H as <- <-. simpl. intros [Hj|Hj]; [discriminate|].
    apply in_map_iff in Hj. destruct Hj as (x & Hx & _). discriminate.
  - destruct (Z.eqb k XK_t || Z.eqb k XK_T); [destruct T|];
      try destruct (Z.eqb k XK_a || Z.eqb k XK_s || Z.eqb k XK_S);
      injection H as <- <-; intros [].
Qed.

Lemma handle_event_animate_quiet : forall T ws ev ws' eff,
  handle_event true T ws ev = (ws', eff) -> ~ In LockCondMutex eff.
Proof.
  intros T ws ev ws' eff H.
  destruct ev as [w a b|w x y st|w x y|w|w|w k|]; simpl in H;
    try (destruct (find_unit ws w) as [i|]);
    try (injection H as <- <-; simpl; intuition discriminate).
  exact (keypress_animate_quiet T ws i k ws' eff H).
Qed.

Lemma handle_event_no_texture : forall A ws ev ws' eff,
  no_tex_flag ws -> handle_event A false ws ev = (ws', eff) -> no_tex_flag ws'.
Proof.
  intros A ws ev ws' eff Hf H. unfold no_tex_flag in *.
  destruct ev as [w a b|w x y st|w x y|w|w|w k|]; simpl in H;
    try (destruct (find_unit ws w) as [i|]);
    try (injection H as <- <-);
    try (apply Forall_upd; [intros x0 Hx; exact Hx|exact Hf]);
    try exact Hf.
  - destruct (any_button st); [apply Forall_upd; [intros x0 Hx; exact Hx|]|]; exact Hf.
  - unfold keypress in H.
    destruct (Z.eqb k XK_Escape); [injection H as <- <-; exact Hf|].
    destruct (Z.eqb k XK_t || Z.eqb k XK_T);
      try destruct (Z.eqb k XK_a || Z.eqb k XK_s || Z.eqb k XK_S);
      injection H as <- <-; exact Hf.
Qed.

Lemma polled_map : forall n k w, 0 <= w < n ->
  polled n w k = map (fun t => (w + Z.of_nat t) mod n) (seq 0 k).
Proof.
  intros n k. induction k as [|k IH]; intros w Hw; [reflexivity|].
  cbn [polled seq map].
  unfold next_w. rewrite Z.rem_mod_nonneg by lia.
  rewrite IH by (apply Z.mod_pos_bound; lia).
  change (Z.of_nat 0) with 0. rewrite Z.add_0_r, (Z.mod_small w n) by lia. f_equal.
  rewrite <- seq_shift, map_map. apply map_ext. intros t.
  rewrite Z.add_mod_idemp_l by lia. f_equal. lia.
Qed.

Lemma mod_shift_inj : forall n w a b, 0 < n -> 0 <= a < n -> 0 <= b < n ->
  (w + a) mod n = (w + b) mod n -> a = b.
Proof.
  intros n w a b Hn Ha Hb H.
  pose proof (Z.div_mod (w + a) n ltac:(lia)) as Da.
  pose proof (Z.div_mod (w + b) n ltac:(lia)) as Db.
  rewrite H in Da.
  assert (E : a - b = n * ((w + a) / n - (w + b) / n)) by lia.
  destruct (Z.lt_trichotomy ((w + a) / n) ((w + b) / n)) as [Hl|[He|Hg]].
  - assert (n * ((w + b) / n - (w + a) / n) >= n) by nia. lia.
  - rewrite He, Z.sub_diag, Z.mul_0_r in E. lia.
  - assert (n * ((w + a) / n - (w + b) / n) >= n) by nia. lia.
Qed.

Lemma frame_filters : forall L M T wt,
  let calls := fst (frame L M T wt) in
  filter is_make_tex calls =
    (if T && negb (Initialized wt) then [fMakeNewTexture] else [])
    ++ (if MakeNewTexture_flag wt then [fMakeNewTexture] else []) /\
  filter is_viewport calls =
    (if NewSize wt then [fViewport 0 0 (WinWidth wt) (WinHeight wt)] else []) /\
  filter is_print calls = (if Initialized wt then [] else [fPrintRenderer (Index wt)]) /\
  filter is_swap_call calls = [fSwapBuffers (Dpy wt) (Win wt)].
Proof.
  intros L M T wt. unfold frame, lock_calls, unlock_calls, LOCK; cbn [fst].
  destruct L, M, T, (Initialized wt), (NewSize wt), (MakeNewTexture_flag wt);
    repeat split; reflexivity.
Qed.

Ltac on_face_tac :=
  split; [reflexivity|split];
  [ repeat constructor; simpl; intuition discriminate
  | apply Forall_forall; intros v Hv; simpl in Hv;
    repeat (destruct Hv as [<-|Hv]); try contradiction;
    (split; [reflexivity|intros b Hb; destruct b as [|[|[|b]]]; simpl; auto; lia]) ].

(** X1 (the window lookup of [event_loop]). [find_unit ws w] is the index
    of the first unit whose window is [w], and it is [None] exactly when
    no unit has window [w]. *)
Theorem find_unit_first : forall ws w,
  (forall i, find_unit ws w = Some i <->
     (exists wt, nth_error ws i = Some wt /\ Win wt = w) /\
     (forall j wt, (j < i)%nat -> nth_error ws j = Some wt -> Win wt <> w)) /\
  (find_unit ws w = None <-> forall wt, In wt ws -> Win wt <> w).
Proof.
  induction ws as [|u ws IH]; intros w.
  - split.
    + intros i. split; [discriminate|]. intros [(wt & Hn & _) _]. destruct i; discriminate.
    + split; [intros _ wt []|reflexivity].
  - simpl. destruct (Z.eqb_spec (Win u) w) as [E|E].
    + split.
      * intros i. split.
        -- intros H. injection H as <-. split; [exists u; auto|intros j wt Hj; lia].
        -- intros [(wt & Hn & Hw) Hb]. destruct i as [|i]; [reflexivity|].
           exfalso. apply (Hb 0%nat u); [lia|reflexivity|exact E].
      * split; [discriminate|]. intros H. exfalso. apply (H u); [left; reflexivity|exact E].
    + destruct (IH w) as [IHs IHn]. split.
      * intros i. split.
        -- intros H. destruct (find_unit ws w) as [k|] eqn:Ek; simpl in H; [|discriminate].
           injection H as <-. destruct (proj1 (IHs k) eq_refl) as [(wt & Hn & Hw) Hb].
           split; [exists wt; auto|].
           intros [|j] wt' Hj Hn'; simpl in Hn'.
           ++ injection Hn' as <-. exact E.
           ++ apply (Hb j); [lia|exact Hn'].
        -- intros [(wt & Hn & Hw) Hb]. destruct i as [|i]; simpl in Hn.
           ++ injection Hn as <-. contradiction.
           ++ rewrite (proj2 (IHs i)); [reflexivity|]. split; [exists wt; auto|].
              intros j wt' Hj Hn'. apply (Hb (S j)); [lia|exact Hn'].
      * split.
        -- intros H. destruct (find_unit ws w) eqn:Ek; simpl in H; [discriminate|].
           intros wt [<-|Hin]; [exact E|exact (proj1 IHn eq_refl wt Hin)].
        -- intros H. rewrite (proj2 IHn); [reflexivity|].
           intros wt Hin. apply H. right. exact Hin.
Qed.

(** X2. An event naming a window that belongs to no unit (and an event
    type the switch does not handle) changes no unit and releases no
    gate: even the exit key is ignored there. *)
Theorem handle_event_unknown_window : forall A T ws ev,
  match event_window ev with Some w => find_unit ws w = None | None => True end ->
  handle_event A T ws ev = (ws, []).
Proof.
  intros A T ws [w a b|w x y st|w x y|w|w|w k|] H; simpl in *;
    [rewrite H; reflexivity ..|reflexivity].
Qed.

Lemma handle_event_unknown_window_witness :
  find_unit [sample_unit 1 7] 8 = None /\
  handle_event false false [sample_unit 1 7] (KeyPress 8 XK_Escape) =
    ([sample_unit 1 7], []).
Proof.
  split; [reflexivity|].
  apply (handle_event_unknown_window false false [sample_unit 1 7] (KeyPress 8 XK_Escape)).
  reflexivity.
Defined.

(** X3. Handling any event in [event_loop] keeps the number of units and
    each unit's display connection, index, window and context, and every
    gate it releases belongs to an existing unit (index below
    [NumWinThreads]). *)
Theorem handle_event_keeps_table : forall A T ws ev,
  map ident (fst (handle_event A T ws ev)) = map ident ws /\
  (forall j, In (UnlockReady j) (snd (handle_event A T ws ev)) ->
     (j < List.length ws)%nat).
Proof.
  intros A T ws ev.
  destruct (handle_event A T ws ev) as [ws' eff] eqn:E.
  exact (handle_event_ident A T ws ev ws' eff E).
Qed.

(** X4 ([event_loop_multi]). Handling an event read from unit [w]'s
    connection changes no other unit's record, keeps every unit's
    connection, index, window and context, and releases no gate but
    [w]'s, except that the exit key releases every gate. *)
Theorem handle_event_multi_local : forall A T ws w ev,
  (forall j, j <> w -> nth_error (fst (handle_event_multi A T ws w ev)) j = nth_error ws j) /\
  map ident (fst (handle_event_multi A T ws w ev)) = map ident ws /\
  (forall i, In (UnlockReady i) (snd (handle_event_multi A T ws w ev)) ->
     i = w \/ exists win, ev = KeyPress win XK_Escape).
Proof.
  intros A T ws w ev.
  destruct ev as [win a b|win x y st|win x y|win|win|win k|]; cbn [handle_event_multi fst snd].
  - split; [intros j Hj; apply nth_error_upd_other; exact Hj|].
    split; [apply map_upd; reflexivity|].
    intros i Hi. apply in_app_or in Hi. destruct Hi as [Hi|[Hi|[]]].
    + destruct A; simpl in Hi; intuition discriminate.
    + injection Hi as <-. left. reflexivity.
  - split; [intros j Hj; destruct (any_button st); [apply nth_error_upd_other; exact Hj|reflexivity]|].
    split; [destruct (any_button st); [apply map_upd|]; reflexivity|].
    intros i [Hi|[]]. injection Hi as <-. left. reflexivity.
  - split; [intros j Hj; apply nth_error_upd_other; exact Hj|].
    split; [apply map_upd; reflexivity|intros i []].
  - split; [reflexivity|split; [reflexivity|]].
    intros i [Hi|[]]. injection Hi as <-. left. reflexivity.
  - split; [reflexivity|split; [reflexivity|]].
    intros i [Hi|[]]. injection Hi as <-. left. reflexivity.
  - destruct (keypress A T ws w k) as [ws' eff] eqn:E. cbn [fst snd].
    pose proof (keypress_ident A T ws w k ws' eff E) as [Hid _].
    unfold keypress in E.
    destruct (Z.eqb_spec k XK_Escape) as [->|Hk].
    + injection E as <- <-. split; [reflexivity|split; [reflexivity|]].
      intros i _. right. exists win. reflexivity.
    + destruct (Z.eqb k XK_t || Z.eqb k XK_T); [destruct T|];
        try destruct (Z.eqb k XK_a || Z.eqb k XK_s || Z.eqb k XK_S);
        injection E as <- <-;
        (split; [intros j Hj; try (apply nth_error_upd_other; exact Hj); reflexivity|]);
        (split; [exact Hid|]);
        intros i Hi; destruct A; simpl in Hi; intuition discriminate.
  - split; [reflexivity|split; [reflexivity|intros i []]].
Qed.

(** X5. When every connection delivers only events for its own unit's
    window, [event_loop_multi]'s handling of an event read from unit [w]
    is the handling [event_loop] gives it after looking the window up. *)
Theorem handle_event_multi_agrees : forall A T ws w ev win,
  event_window ev = Some win -> find_unit ws win = Some w ->
  handle_event_multi A T ws w ev = handle_event A T ws ev.
Proof.
  intros A T ws w [w' a b|w' x y st|w' x y|w'|w'|w' k|] win Hw Hf;
    simpl in Hw; try discriminate; injection Hw as <-; simpl; rewrite Hf; reflexivity.
Qed.

Lemma handle_event_multi_agrees_witness :
  find_unit [sample_unit 1 7; sample_unit 2 9] 9 = Some 1%nat /\
  handle_event_multi false true [sample_unit 1 7; sample_unit 2 9] 1 (KeyPress 9 XK_t) =
    handle_event false true [sample_unit 1 7; sample_unit 2 9] (KeyPress 9 XK_t).
Proof.
  split; [reflexivity|].
  exact (handle_event_multi_agrees false true [sample_unit 1 7; sample_unit 2 9] 1
           (KeyPress 9 XK_t) 9 eq_refl eq_refl).
Defined.

(** X6. The round robin of [event_loop_multi], started at any unit
    [0 <= w < n]: the next [n] iterations poll [n] distinct units, all of
    them valid indices, so every unit is polled exactly once. *)
Theorem event_loop_multi_round_robin : forall n w, 0 <= w < n ->
  NoDup (polled n w (Z.to_nat n)) /\
  (forall j, In j (polled n w (Z.to_nat n)) <-> 0 <= j < n).
Proof.
  intros n w Hw. rewrite polled_map by exact Hw. split.
  - apply NoDup_map_NoDup_ForallPairs; [|apply seq_NoDup].
    intros a b Ha Hb E. apply in_seq in Ha. apply in_seq in Hb.
    apply Nat2Z.inj. apply (mod_shift_inj n w); try lia; exact E.
  - intros j. rewrite in_map_iff. split.
    + intros (t & <- & _). apply Z.mod_pos_bound. lia.
    + intros Hj. exists (Z.to_nat ((j - w) mod n)).
      pose proof (Z.mod_pos_bound (j - w) n ltac:(lia)).
      rewrite Z2Nat.id by lia. split.
      * rewrite Z.add_mod_idemp_r by lia.
        replace (w + (j - w)) with j by ring. apply Z.mod_small. exact Hj.
      * apply in_seq. lia.
Qed.

Lemma event_loop_multi_round_robin_witness :
  0 <= 1 < 3 /\ NoDup (polled 3 1 (Z.to_nat 3)).
Proof.
  split; [lia|].
  exact (proj1 (event_loop_multi_round_robin 3 1 ltac:(lia))).
Defined.

(** X7 ([create_window]). Two units with different indices get windows
    that do not overlap: the windows are laid out in two columns
    10 pixels apart and in rows 20 pixels apart. *)
Theorem create_window_no_overlap : forall i j,
  0 <= i -> 0 <= j -> i <> j -> rects_disjoint (window_rect i) (window_rect j).
Proof.
  intros i j Hi Hj Hij. unfold rects_disjoint, window_rect, window_pos, cw_width, cw_height.
  rewrite !Z.rem_mod_nonneg, !Z.quot_div_nonneg by lia.
  pose proof (Z.div_mod i 2 ltac:(lia)). pose proof (Z.mod_pos_bound i 2 ltac:(lia)).
  pose proof (Z.div_mod j 2 ltac:(lia)). pose proof (Z.mod_pos_bound j 2 ltac:(lia)).
  destruct (Z.lt_trichotomy (i / 2) (j / 2)) as [Hl|[He|Hg]].
  - right. right. left. lia.
  - assert (i mod 2 <> j mod 2) by lia. lia.
  - right. right. right. lia.
Qed.

Lemma create_window_no_overlap_witness :
  0 <= 2 /\ 0 <= 3 /\ 2 <> 3 /\ rects_disjoint (window_rect 2) (window_rect 3).
Proof.
  split; [lia|split; [lia|split; [lia|]]].
  exact (create_window_no_overlap 2 3 ltac:(lia) ltac:(lia) ltac:(lia)).
Defined.

Lemma setup_loop_gen : forall T multi dpy xr m k tbl tbl' calls,
  (k + m <= List.length tbl)%nat ->
  ((0 < k)%nat -> Context (nth 0 tbl zero_unit) = res_context xr 0) ->
  setup_loop T multi dpy xr tbl (seq k m) = (tbl', calls) ->
  calls = map (fun i => (i, if T && Nat.ltb 0 i then res_context xr 0 else 0)) (seq k m) /\
  (forall i, nth i tbl' zero_unit =
     if Nat.leb k i && Nat.ltb i (k + m) then
       create_window_fields
         (unit_start (if multi then res_display xr i else dpy) i (nth i tbl zero_unit))
         (res_window xr i) (res_context xr i)
     else nth i tbl zero_unit).
Proof.
  intros T multi dpy xr m. induction m as [|m IH]; intros k tbl tbl' calls Hlen H0 Hs.
  - simpl in Hs. injection Hs as <- <-. split; [reflexivity|].
    intros i. destruct (Nat.leb_spec k i); destruct (Nat.ltb_spec i (k + 0)); simpl; try reflexivity; lia.
  - cbn [seq setup_loop] in Hs.
    set (tbl1 := upd tbl k _) in Hs.
    set (tbl2 := upd tbl1 k _) in Hs.
    destruct (setup_loop T multi dpy xr tbl2 (seq (S k) m)) as [t c] eqn:E.
    injection Hs as <- <-.
    assert (L2 : List.length tbl2 = List.length tbl) by (unfold tbl2, tbl1; rewrite !upd_length; reflexivity).
    assert (Hk : Nat.ltb k (List.length tbl) = true) by (apply Nat.ltb_lt; lia).
    assert (C0 : Context (nth 0 tbl2 zero_unit) = res_context xr 0).
    { destruct k as [|k].
      - unfold tbl2, tbl1. rewrite !nth_upd_eq, upd_length, Hk. reflexivity.
      - unfold tbl2, tbl1. rewrite !nth_upd_other by lia. apply H0. lia. }
    destruct (IH (S k) tbl2 t c ltac:(lia) (fun _ => C0) E) as [Hc Hn].
    split.
    + rewrite Hc. cbn [seq map]. apply f_equal2; [|reflexivity]. apply f_equal2; [reflexivity|].
      destruct T; cbn [andb]; [|reflexivity].
      destruct (Nat.ltb_spec 0 k); [|reflexivity].
      unfold tbl1. rewrite nth_upd_other by lia. apply H0. exact H.
    + intros i. rewrite Hn.
      destruct (Nat.eq_dec i k) as [->|Hik].
      * rewrite (proj2 (Nat.leb_gt (S k) k) ltac:(lia)), Nat.leb_refl.
        rewrite (proj2 (Nat.ltb_lt k (k + S m)) ltac:(lia)). cbn [andb].
        unfold tbl2, tbl1. rewrite !nth_upd_eq, upd_length, Hk. reflexivity.
      * unfold tbl2, tbl1. rewrite !nth_upd_other by exact Hik.
        destruct (Nat.leb_spec (S k) i); destruct (Nat.ltb_spec i (S k + m));
          destruct (Nat.leb_spec k i); destruct (Nat.ltb_spec i (k + S m));
          cbn [andb]; try reflexivity; lia.
Qed.

(** X8 ([main]'s window loop and [create_window], when no call fails).
    Unit [i] ends up with its connection, index [i], the window and the
    context created for it, angles [0], a 700 x 700 size still to be
    applied ([NewSize]) and [Initialized] false; its context is created
    sharing unit 0's context when texturing is on and [i > 0], and sharing
    none otherwise. *)
Theorem main_setup_units : forall T multi dpy xr n,
  (n <= Z.to_nat MAX_WINTHREADS)%nat ->
  snd (setup_loop T multi dpy xr zero_table (seq 0 n)) =
    map (fun i => (i, if T && Nat.ltb 0 i then res_context xr 0 else 0)) (seq 0 n) /\
  (forall i, (i < n)%nat ->
     nth i (fst (setup_loop T multi dpy xr zero_table (seq 0 n))) zero_unit =
     initial_unit (if multi then res_display xr i else dpy) i
                  (res_window xr i) (res_context xr i)).
Proof.
  intros T multi dpy xr n Hn.
  destruct (setup_loop T multi dpy xr zero_table (seq 0 n)) as [t c] eqn:E.
  assert (Hl : (0 + n <= List.length zero_table)%nat) by (unfold zero_table; rewrite repeat_length; lia).
  destruct (setup_loop_gen T multi dpy xr n 0 zero_table t c Hl ltac:(lia) E) as [Hc Ht].
  split; [exact Hc|]. intros i Hi. cbn [fst]. rewrite Ht.
  rewrite (proj2 (Nat.ltb_lt i (0 + n)) ltac:(lia)). cbn [Nat.leb andb].
  unfold zero_table. rewrite nth_repeat. reflexivity.
Qed.

Lemma main_setup_units_witness :
  (2 <= Z.to_nat MAX_WINTHREADS)%nat /\
  snd (setup_loop true false 5 (mkXresults (fun _ => 0) (fun i => 40 + Z.of_nat i)
                                           (fun i => 70 + Z.of_nat i))
                  zero_table (seq 0 2)) = [(0%nat, 0); (1%nat, 70)].
Proof.
  split; [vm_compute; lia|].
  exact (proj1 (main_setup_units true false 5
                  (mkXresults (fun _ => 0) (fun i => 40 + Z.of_nat i) (fun i => 70 + Z.of_nat i))
                  2 ltac:(vm_compute; lia))).
Defined.

(** X9 ([LOCK]/[UNLOCK] and the start of [main]). [XInitThreads] is
    called exactly in the mode where [LOCK] uses [XLockDisplay]; the lock
    message printed names the primitive [LOCK] uses; [LOCK] takes no lock
    only with per-unit connections and no [-l]; and the shared connection
    is opened exactly when there are no per-unit connections. *)
Theorem lock_mode_consistent : forall Locking MultiDisplays,
  (In CallXInitThreads (main_prelude Locking MultiDisplays) <->
     LOCK Locking MultiDisplays = Some DisplayLock) /\
  (In MsgXLockDisplay (main_prelude Locking MultiDisplays) <->
     LOCK Locking MultiDisplays = Some DisplayLock) /\
  (In MsgExplicitLocks (main_prelude Locking MultiDisplays) <->
     LOCK Locking MultiDisplays = Some MutexLock) /\
  (LOCK Locking MultiDisplays = None <-> MultiDisplays = true /\ Locking = false) /\
  (In CallXOpenDisplay (main_prelude Locking MultiDisplays) <-> MultiDisplays = false).
Proof.
  intros [] []; cbn; intuition (try discriminate; try congruence).
Qed.

(** X10 ([draw_loop]). One frame of a unit regenerates the texture once
    for its first frame in texturing mode and once more if its
    [MakeNewTexture] flag is set; it sets the viewport to the unit's size
    exactly when [NewSize] is set; it reports the renderer only before the
    unit is initialised; and it swaps buffers exactly once, on the unit's
    own window. *)
Theorem frame_calls : forall Locking MultiDisplays Texture wt,
  fcount is_make_tex (fst (frame Locking MultiDisplays Texture wt)) =
    ((if Texture && negb (Initialized wt) then 1 else 0)
     + (if MakeNewTexture_flag wt then 1 else 0))%nat /\
  filter is_viewport (fst (frame Locking MultiDisplays Texture wt)) =
    (if NewSize wt then [fViewport 0 0 (WinWidth wt) (WinHeight wt)] else []) /\
  filter is_print (fst (frame Locking MultiDisplays Texture wt)) =
    (if Initialized wt then [] else [fPrintRenderer (Index wt)]) /\
  filter is_swap_call (fst (frame Locking MultiDisplays Texture wt)) =
    [fSwapBuffers (Dpy wt) (Win wt)].
Proof.
  intros L M T wt. destruct (frame_filters L M T wt) as (H1 & H2 & H3 & H4).
  split; [|exact (conj H2 (conj H3 H4))].
  unfold fcount. rewrite H1, length_app.
  destruct T, (Initialized wt), (MakeNewTexture_flag wt); reflexivity.
Qed.

(** X11 ([draw_loop]). A unit that draws a second frame with no event
    handled in between sets no viewport or projection, regenerates no
    texture and prints nothing, and still swaps its buffers once. *)
Theorem frame_again_no_setup : forall Locking MultiDisplays Texture wt,
  let calls := fst (frame Locking MultiDisplays Texture
                      (snd (frame Locking MultiDisplays Texture wt))) in
  filter is_viewport calls = [] /\ filter is_frustum calls = [] /\
  filter is_make_tex calls = [] /\ filter is_print calls = [] /\
  filter is_swap_call calls = [fSwapBuffers (Dpy wt) (Win wt)].
Proof.
  intros L M T wt. unfold frame, lock_calls, unlock_calls, LOCK, drawn; cbn [fst snd].
  destruct L, M, T; cbn; repeat split.
Qed.

(** X12 ([event_loop], [resize], [draw_loop]). Let [wt] be the record
    [event_loop] leaves for a unit after a [ConfigureNotify] for its
    window.  If the unit's next frame starts after the event was handled,
    that frame sets the viewport to the size the event carries.  If
    instead the event was handled while the unit was inside a frame that
    applies an earlier resize, between its [if (wt->NewSize)] test and
    [wt->NewSize = GL_FALSE], that clear
    overwrites the flag ([drawn wt]): the new size is stored, but the
    unit's following frame sets no viewport, so the resize is lost. *)
Theorem configure_then_viewport : forall A T Locking MultiDisplays ws w width height i,
  find_unit ws w = Some i ->
  exists wt, nth_error (fst (handle_event A T ws (ConfigureNotify w width height))) i = Some wt /\
    filter is_viewport (fst (frame Locking MultiDisplays T wt)) = [fViewport 0 0 width height] /\
    WinWidth (drawn wt) = width /\ WinHeight (drawn wt) = height /\
    filter is_viewport (fst (frame Locking MultiDisplays T (drawn wt))) = [].
Proof.
  intros A T L M ws w width height i Hf.
  destruct (find_unit_some ws w i Hf) as (wt & Hn & _).
  exists (resize wt width height). unfold handle_event. rewrite Hf. cbn [fst]. split.
  - exact (nth_error_upd_same _ ws i (fun wt => resize wt width height) wt Hn).
  - split; [rewrite (proj1 (proj2 (frame_filters L M T (resize wt width height)))); reflexivity|].
    split; [reflexivity|split; [reflexivity|]].
    rewrite (proj1 (proj2 (frame_filters L M T (drawn (resize wt width height))))).
    reflexivity.
Qed.

Lemma configure_then_viewport_witness :
  find_unit [sample_unit 1 7] 7 = Some 0%nat /\
  exists wt, nth_error (fst (handle_event true false [sample_unit 1 7]
                               (ConfigureNotify 7 300 200))) 0 = Some wt /\
    filter is_viewport (fst (frame false false false wt)) = [fViewport 0 0 300 200] /\
    WinWidth (drawn wt) = 300 /\ WinHeight (drawn wt) = 200 /\
    filter is_viewport (fst (frame false false false (drawn wt))) = [].
Proof.
  split; [reflexivity|].
  exact (configure_then_viewport true false false false [sample_unit 1 7] 7 300 200 0 eq_refl).
Defined.

(** X13 ([keypress], [draw_loop]). With texturing on, let [wt] be the
    record [event_loop] leaves for a unit after the [t] key in its window.
    If the unit's next frame starts after the key was handled, that frame
    regenerates the texture.  If instead the key was handled while the
    unit was inside a frame that serves an earlier press, between its
    [if (wt->MakeNewTexture)] test and [wt->MakeNewTexture = GL_FALSE]
    (during the [MakeNewTexture] call), that clear overwrites the flag
    ([drawn wt]) and the unit's following frame does not regenerate the
    texture: the key press is lost. *)
Theorem t_key_then_new_texture : forall A Locking MultiDisplays ws w k i,
  find_unit ws w = Some i -> k = XK_t \/ k = XK_T ->
  exists wt, nth_error (fst (handle_event A true ws (KeyPress w k))) i = Some wt /\
    In fMakeNewTexture (fst (frame Locking MultiDisplays true wt)) /\
    ~ In fMakeNewTexture (fst (frame Locking MultiDisplays true (drawn wt))).
Proof.
  intros A L M ws w k i Hf Hk.
  destruct (find_unit_some ws w i Hf) as (wt & Hn & _).
  exists (set_MakeNewTexture true wt). unfold handle_event. rewrite Hf. unfold keypress.
  assert (Ht : (Z.eqb k XK_Escape = false) /\ (Z.eqb k XK_t || Z.eqb k XK_T = true))
    by (destruct Hk as [-> | ->]; split; reflexivity).
  destruct Ht as [-> ->]. cbn [fst]. split.
  - apply nth_error_upd_same. exact Hn.
  - split.
    + apply (filter_In is_make_tex).
      rewrite (proj1 (frame_filters L M true (set_MakeNewTexture true wt))).
      cbn [MakeNewTexture_flag]. apply in_or_app. right. left. reflexivity.
    + intros Hin.
      assert (Hm : In fMakeNewTexture (filter is_make_tex
                     (fst (frame L M true (drawn (set_MakeNewTexture true wt))))))
        by (apply filter_In; split; [exact Hin|reflexivity]).
      rewrite (proj1 (frame_filters L M true (drawn (set_MakeNewTexture true wt)))) in Hm.
      cbn in Hm. exact Hm.
Qed.

Lemma t_key_then_new_texture_witness :
  find_unit [sample_unit 1 7] 7 = Some 0%nat /\
  exists wt, nth_error (fst (handle_event false true [sample_unit 1 7] (KeyPress 7 XK_t))) 0
               = Some wt /\
    In fMakeNewTexture (fst (frame false false true wt)) /\
    ~ In fMakeNewTexture (fst (frame false false true (drawn wt))).
Proof.
  split; [reflexivity|].
  exact (t_key_then_new_texture false false false [sample_unit 1 7] 7 XK_t 0 eq_refl
           (or_introl eq_refl)).
Defined.

(** X14 ([draw_object]). Whatever the texturing mode, the object drawn
    is the cube [[-1,1]^3]: exactly 24 vertices, which group in fours
    into 6 quads with none left over, and each of the six faces of the
    cube is one of them, given by its four distinct corners; texturing is
    enabled exactly in texturing mode. *)
Theorem draw_object_cube : forall Texture,
  List.length (vertices (draw_object Texture)) = 24%nat /\
  List.concat (quads (vertices (draw_object Texture))) = vertices (draw_object Texture) /\
  List.length (quads (vertices (draw_object Texture))) = 6%nat /\
  (forall a s, (a < 3)%nat -> s = -1 \/ s = 1 ->
     exists q, In q (quads (vertices (draw_object Texture))) /\ on_face a s q) /\
  (In (oEnable GL_TEXTURE_2D) (draw_object Texture) <-> Texture = true).
Proof.
  intros T.
  split; [destruct T; vm_compute; reflexivity|].
  split; [destruct T; vm_compute; reflexivity|].
  assert (E : quads (vertices (draw_object T)) = quads (vertices (draw_object false)))
    by (destruct T; vm_compute; reflexivity).
  rewrite E. split; [vm_compute; reflexivity|split].
  - intros a s Ha Hs. cbv [draw_object quad_face vtx vertices quads app].
    destruct a as [|[|[|a]]]; [| | |lia]; destruct Hs as [-> | ->].
    + exists [(-1, -1, -1); (-1, 1, -1); (-1, 1, 1); (-1, -1, 1)].
      split; [left; reflexivity|on_face_tac].
    + exists [(1, -1, -1); (1, 1, -1); (1, 1, 1); (1, -1, 1)].
      split; [right; left; reflexivity|on_face_tac].
    + exists [(-1, -1, -1); (1, -1, -1); (1, -1, 1); (-1, -1, 1)].
      split; [right; right; left; reflexivity|on_face_tac].
    + exists [(-1, 1, -1); (1, 1, -1); (1, 1, 1); (-1, 1, 1)].
      split; [right; right; right; left; reflexivity|on_face_tac].
    + exists [(-1, -1, -1); (1, -1, -1); (1, 1, -1); (-1, 1, -1)].
      split; [right; right; right; right; left; reflexivity|on_face_tac].
    + exists [(-1, -1, 1); (1, -1, 1); (1, 1, 1); (-1, 1, 1)].
      split; [right; right; right; right; right; left; reflexivity|on_face_tac].
  - destruct T; split; intros H; try reflexivity.
    + simpl. right. right. right. right. left. reflexivity.
    + simpl in H. repeat (destruct H as [H|H]; [discriminate|]). contradiction.
    + discriminate.
Qed.

(** X15 (the option loop of [main]). An option list the loop accepts,
    followed by a [-n] or [-display] with no value, makes the program
    print the usage text and exit with status 1. *)
Theorem dangling_value_option : forall args c a,
  parse_loop default_config args = ParseOk c ->
  a = "-n"%string \/ a = "-display"%string ->
  parse_args (args ++ [a]) = ([Usage], ParseExit 1).
Proof.
  intros args c a H Ha.
  destruct (args ++ [a]) as [|x l] eqn:E; [destruct args; discriminate|].
  rewrite parse_args_cons, <- E, (parse_loop_app args default_config c [a] H).
  destruct Ha as [-> | ->]; reflexivity.
Qed.

Lemma dangling_value_option_witness :
  parse_loop default_config ["-p"%string; "-n"%string; "3"%string] =
    ParseOk (mkConfig None 3 true false false) /\
  parse_args (["-p"%string; "-n"%string; "3"%string] ++ ["-n"%string]) =
    ([Usage], ParseExit 1).
Proof.
  split; [reflexivity|].
  exact (dangling_value_option ["-p"%string; "-n"%string; "3"%string]
           (mkConfig None 3 true false false) "-n"%string eq_refl (or_introl eq_refl)).
Defined.

Lemma table_inv_step : forall A T u0 s c s',
  table_inv u0 s -> exec A T s c = Some s' -> table_inv u0 s'.
Proof.
  intros A T u0 s c s' (Hu & Hp & Hr & Hd) Hex.
  exec_cases Hex; unfold with_pc, acquire_gate, draw_block; cbn [units pcs ready disp];
    unfold table_inv; cbn [units pcs ready disp];
    rewrite ?upd_length, ?length_map.
  all: try match goal with
           | H : handle_event _ _ _ _ = _ |- _ =>
               destruct (handle_event_ident _ _ _ _ _ _ H) as [Hi Hb];
               split; [rewrite Hi; exact Hu|];
               split; [exact Hp|split; [exact Hr|]];
               intros k Hk; apply Hb in Hk;
               rewrite <- (length_map ident), Hu, length_map in Hk; exact Hk
           end.
  all: split; [first [exact Hu | rewrite map_upd by reflexivity; exact Hu]|].
  all: split; [exact Hp|split; [exact Hr|]].
  all: first
         [ exact Hd
         | intros k Hk; apply Hd;
           try match goal with H : disp _ = _ :: _ |- _ => rewrite H end;
           right; exact Hk ].
Qed.

Lemma no_wait_upd : forall (l : list upc) j (f : upc -> upc),
  (forall x, f x <> U_CondWait) -> (forall x, f x <> U_CondWake) ->
  (forall i, nth_error l i <> Some U_CondWait /\ nth_error l i <> Some U_CondWake) ->
  forall i, nth_error (upd l j f) i <> Some U_CondWait /\
            nth_error (upd l j f) i <> Some U_CondWake.
Proof.
  intros l j f H1 H2 Hl i. destruct (Nat.eq_dec i j) as [->|Hij].
  - rewrite nth_error_upd_eq. destruct (nth_error l j) as [x|]; cbn; [|split; discriminate].
    split; intros E; injection E; [apply H1|apply H2].
  - rewrite nth_error_upd_other by exact Hij. exact (Hl i).
Qed.

Lemma no_wait_wake_all : forall (l : list upc),
  (forall i, nth_error l i <> Some U_CondWait /\ nth_error l i <> Some U_CondWake) ->
  forall i, nth_error (map wake_all l) i <> Some U_CondWait /\
            nth_error (map wake_all l) i <> Some U_CondWake.
Proof.
  intros l Hl i. rewrite nth_error_map. destruct (Hl i) as [H1 H2].
  destruct (nth_error l i) as [[]|]; cbn; split; congruence.
Qed.

Lemma anim_inv_step : forall T s c s',
  anim_inv s -> exec true T s c = Some s' -> anim_inv s'.
Proof.
  intros T s c s' (Hm & Hd & Hp & Ht) Hex.
  exec_cases Hex; unfold with_pc, acquire_gate, draw_block;
    unfold anim_inv; cbn [CondMutexHeld disp pcs trace].
  all: try (exfalso; match goal with
                     | H : nth_error (pcs _) ?j = Some U_CondWait |- _ =>
                         exact (proj1 (Hp j) H)
                     | H : nth_error (pcs _) ?j = Some U_CondWake |- _ =>
                         exact (proj2 (Hp j) H)
                     | H : disp _ = LockCondMutex :: _ |- _ =>
                         apply Hd; rewrite H; left; reflexivity
                     | H : ~ In LockCondMutex (LockCondMutex :: _) |- _ =>
                         apply H; left; reflexivity
                     end).
  all: split; [first [exact Hm | reflexivity]|].
  all: split;
    [ first [ exact Hd
            | intros Hk; apply Hd;
              try match goal with H : disp _ = _ :: _ |- _ => rewrite H end; right; exact Hk
            | match goal with
              | H : handle_event _ _ _ _ = _ |- _ => exact (handle_event_animate_quiet _ _ _ _ _ H)
              end ]
    |].
  all: split;
    [ first [ exact Hp
            | apply no_wait_upd; [intros ?; discriminate|intros ?; discriminate|exact Hp]
            | apply no_wait_wake_all; exact Hp ]
    |].
  all: let k := fresh "k" in intros k [Ho|Ho]; [discriminate Ho|exact (Ht k Ho)].
Qed.

Lemma no_tex_step : forall A s c s',
  no_tex_flag (units s) -> exec A false s c = Some s' -> no_tex_flag (units s').
Proof.
  intros A s c s' Hf Hex.
  exec_cases Hex; unfold with_pc, acquire_gate, draw_block; cbn [units].
  all: try exact Hf.
  all: try match goal with
           | H : handle_event _ _ _ _ = _ |- _ => exact (handle_event_no_texture _ _ _ _ _ Hf H)
           end.
  apply Forall_upd; [intros x _; reflexivity|exact Hf].
Qed.

(** X16 (the whole program). In every reachable state the dispatcher and
    the render threads have kept each unit's display connection, index,
    window and context and the number of units, and every gate release
    the dispatcher has pending names one of the units. *)
Theorem table_identity_kept : forall A T u0 s,
  reachable A T u0 s ->
  map ident (units s) = map ident u0 /\
  List.length (pcs s) = List.length u0 /\
  List.length (ready s) = List.length u0 /\
  (forall j, In (UnlockReady j) (disp s) -> (j < List.length u0)%nat).
Proof.
  intros A T u0 s Hr. induction Hr as [|s c s' Hr IH Hex].
  - unfold init_sys; cbn. rewrite !length_map. repeat split; intros j [].
  - exact (table_inv_step A T u0 s c s' IH Hex).
Qed.

Lemma table_identity_kept_witness :
  match run false false (init_sys [sample_unit 1 7]) t_key_sched with
  | Some s => (forall j, In (UnlockReady j) (disp s) -> (j < 1)%nat)
  | None => False
  end.
Proof.
  destruct (run false false (init_sys [sample_unit 1 7]) t_key_sched) as [s|] eqn:E;
    [|vm_compute in E; discriminate].
  exact (proj2 (proj2 (proj2 (table_identity_kept false false [sample_unit 1 7] s
           (run_reachable false false [sample_unit 1 7] t_key_sched (init_sys [sample_unit 1 7]) s (reach_init false false [sample_unit 1 7]) E))))).
Defined.

(** X17 ([draw_loop] and the dispatcher in animation mode). When
    animating, no thread ever holds [CondMutex], no render thread ever
    waits on the redraw condition, and none is ever woken from it. *)
Theorem animate_never_waits : forall T u0 s,
  reachable true T u0 s ->
  CondMutexHeld s = false /\
  (forall i, nth_error (pcs s) i <> Some U_CondWait /\
             nth_error (pcs s) i <> Some U_CondWake) /\
  (forall i, ~ In (O_Wait i) (trace s)).
Proof.
  intros T u0 s Hr.
  assert (H : anim_inv s).
  { induction Hr as [|s c s' Hr IH Hex].
    - unfold anim_inv, init_sys; cbn. split; [reflexivity|split; [intros []|split]].
      + intros i. rewrite nth_error_map. destruct (nth_error u0 i); cbn; split; discriminate.
      + intros i [].
    - exact (anim_inv_step T s c s' IH Hex). }
  destruct H as (Hm & _ & Hp & Ht). auto.
Qed.

Lemma animate_never_waits_witness :
  match run true false (init_sys [sample_unit 1 7]) anim_sched with
  | Some s => CondMutexHeld s = false
  | None => False
  end.
Proof.
  destruct (run true false (init_sys [sample_unit 1 7]) anim_sched) as [s|] eqn:E;
    [|vm_compute in E; discriminate].
  exact (proj1 (animate_never_waits false [sample_unit 1 7] s
           (run_reachable true false [sample_unit 1 7] anim_sched (init_sys [sample_unit 1 7]) s (reach_init true false [sample_unit 1 7]) E))).
Defined.

(** X18 ([keypress], [draw_loop] without [-t]). Without texturing, if no
    unit starts with its [MakeNewTexture] flag set, no unit ever has it
    set, and no frame of any unit ever regenerates the texture. *)
Theorem no_texture_never_regenerates : forall A u0 s,
  no_tex_flag u0 -> reachable A false u0 s ->
  Forall (fun wt => MakeNewTexture_flag wt = false /\
                    forall Locking MultiDisplays,
                      ~ In fMakeNewTexture (fst (frame Locking MultiDisplays false wt)))
         (units s).
Proof.
  intros A u0 s H0 Hr.
  assert (Hf : no_tex_flag (units s)).
  { induction Hr as [|s c s' Hr IH Hex]; [exact H0|].
    exact (no_tex_step A s c s' IH Hex). }
  eapply Forall_impl; [|exact Hf]. intros wt Hw. split; [exact Hw|].
  intros L M Hin.
  assert (Hm : In fMakeNewTexture (filter is_make_tex (fst (frame L M false wt))))
    by (apply filter_In; split; [exact Hin|reflexivity]).
  rewrite (proj1 (frame_filters L M false wt)), Hw in Hm. cbn in Hm. exact Hm.
Qed.

Lemma no_texture_never_regenerates_witness :
  no_tex_flag [sample_unit 1 7] /\
  match run false false (init_sys [sample_unit 1 7]) t_key_sched with
  | Some s => Forall (fun wt => MakeNewTexture_flag wt = false /\
                        forall Locking MultiDisplays,
                          ~ In fMakeNewTexture (fst (frame Locking MultiDisplays false wt)))
                     (units s)
  | None => False
  end.
Proof.
  assert (H0 : no_tex_flag [sample_unit 1 7]) by (repeat constructor).
  split; [exact H0|].
  destruct (run false false (init_sys [sample_unit 1 7]) t_key_sched) as [s|] eqn:E;
    [|vm_compute in E; discriminate].
  exact (no_texture_never_regenerates false [sample_unit 1 7] s H0
           (run_reachable false false [sample_unit 1 7] t_key_sched (init_sys [sample_unit 1 7]) s (reach_init false false [sample_unit 1 7]) E)).
Defined.
